(** * CulinaryHaven: the incremental search controller of [SearchBar]

    A shallow embedding of the [SearchBar] component (the search input with
    autocomplete suggestions, keyboard navigation and debounced URL
    synchronisation) together with the properties its specification states.

    - JavaScript strings are sequences of UTF-16 code units, so that
      [length] and [trim] mean what they mean in the source.
    - [URLSearchParams] is the ordered list of name/value pairs of the
      URL standard, with [get], [set] and [delete] as specified there.
    - The component is a record of React state, refs and hook values plus the
      part of the environment its handlers act on (timers, router, the
      suggestion service, the console).  Handlers are written in a small
      state-and-exception monad and read state variables from the render in
      which they were created, as closures do. *)

From Stdlib Require Import List ZArith NArith Bool Lia String Ascii.
From Stdlib Require Import DecimalString.
Import ListNotations.

(** ** JavaScript strings *)

Module JS.

Definition code_unit := N.
Definition jsstring := list code_unit.

(** An ASCII literal as a JavaScript string. *)
Definition str (s : string) : jsstring :=
  List.map N_of_ascii (list_ascii_of_string s).

(** [s.length]: the number of code units. *)
Definition length (s : jsstring) : Z := Z.of_nat (List.length s).

(** [a.length] on arrays. *)
Definition length_of {A} (a : list A) : Z := Z.of_nat (List.length a).

(** [a === b] on strings. *)
Fixpoint eqb (a b : jsstring) : bool :=
  match a, b with
  | [], [] => true
  | x :: a', y :: b' => N.eqb x y && eqb a' b'
  | _, _ => false
  end.

(** A string is truthy when it is not empty. *)
Definition truthy (s : jsstring) : bool :=
  match s with [] => false | _ :: _ => true end.

(** The code units [String.prototype.trim] strips: WhiteSpace and
    LineTerminator of ECMA-262 (all of them in the basic plane). *)
Definition is_white_space (c : code_unit) : bool :=
  ((9 <=? c) && (c <=? 13)         (* TAB, LF, VT, FF, CR *)
   || (c =? 32)                    (* SPACE *)
   || (c =? 160)                   (* NO-BREAK SPACE *)
   || (c =? 5760)                  (* OGHAM SPACE MARK *)
   || ((8192 <=? c) && (c <=? 8202)) (* EN QUAD .. HAIR SPACE *)
   || (c =? 8232) || (c =? 8233)   (* LINE / PARAGRAPH SEPARATOR *)
   || (c =? 8239)                  (* NARROW NO-BREAK SPACE *)
   || (c =? 8287)                  (* MEDIUM MATHEMATICAL SPACE *)
   || (c =? 12288)                 (* IDEOGRAPHIC SPACE *)
   || (c =? 65279))%N.             (* ZERO WIDTH NO-BREAK SPACE *)

Fixpoint trimStart (s : jsstring) : jsstring :=
  match s with
  | [] => []
  | c :: s' => if is_white_space c then trimStart s' else s
  end.

Definition trimEnd (s : jsstring) : jsstring := rev (trimStart (rev s)).

Definition trim (s : jsstring) : jsstring := trimEnd (trimStart s).

(** [a + b] on strings. *)
Definition concat (a b : jsstring) : jsstring := a ++ b.

(** Surrogate code units: the leading ones and the trailing ones. *)
Definition is_high_surrogate (c : code_unit) : bool :=
  ((55296 <=? c) && (c <=? 56319))%N.

Definition is_low_surrogate (c : code_unit) : bool :=
  ((56320 <=? c) && (c <=? 57343))%N.

(** [s.toWellFormed()], which is also the conversion of a string to a
    [USVString]: every surrogate that is not half of a pair becomes
    U+FFFD. *)
Fixpoint toWellFormed (s : jsstring) : jsstring :=
  match s with
  | [] => []
  | c :: s' =>
      if is_high_surrogate c then
        match s' with
        | d :: s'' =>
            if is_low_surrogate d then c :: d :: toWellFormed s''
            else 65533%N :: toWellFormed s'
        | [] => [65533%N]
        end
      else if is_low_surrogate c then 65533%N :: toWellFormed s'
      else c :: toWellFormed s'
  end.

End JS.

Abbreviation jsstring := JS.jsstring.
Abbreviation str := JS.str.

(** ** URLSearchParams *)

Module URLSearchParams.

(** The list of name/value pairs of the URL standard.  Names and values
    are [USVString]s; the names this program passes are ASCII literals, which
    that conversion leaves as they are, so [get] and [delete] compare them
    directly. *)
Definition t := list (jsstring * jsstring).

(** [params.get(name)]: the value of the first pair named [name]. *)
Fixpoint get (name : jsstring) (p : t) : option jsstring :=
  match p with
  | [] => None
  | (n, v) :: p' => if JS.eqb n name then Some v else get name p'
  end.

(** [params.delete(name)]: removes every pair named [name]. *)
Fixpoint delete (name : jsstring) (p : t) : t :=
  match p with
  | [] => []
  | (n, v) :: p' =>
      if JS.eqb n name then delete name p' else (n, v) :: delete name p'
  end.

(** The list after [set]: the first pair named [name] takes [value] and
    the other pairs of that name are removed; with no such pair, a new one
    is appended. *)
Fixpoint set_pair (name value : jsstring) (p : t) : t :=
  match p with
  | [] => [(name, value)]
  | (n, v) :: p' =>
      if JS.eqb n name then (n, value) :: delete name p'
      else (n, v) :: set_pair name value p'
  end.

(** [params.set(name, value)]: both arguments are [USVString]s, so the
    strings stored are the well-formed versions of those passed. *)
Definition set (name value : jsstring) (p : t) : t :=
  set_pair (JS.toWellFormed name) (JS.toWellFormed value) p.

(** [new URLSearchParams(other.toString())]: serialising and parsing
    again yields the same pairs, so the copy is the list itself. *)
Definition of_toString (p : t) : t := p.

End URLSearchParams.

(** A navigation target [`/?${params.toString()}`]: the root path with the
    given query parameters. *)
Record Href := { pathname : jsstring; query : URLSearchParams.t }.

Definition root_with (params : URLSearchParams.t) : Href :=
  {| pathname := str "/"; query := params |}.

(** ** The component's state and its environment *)

(** A suggestion as the service returns it. *)
Record Suggestion := {
  id : N;
  title : jsstring;
  category : option jsstring
}.

(** The five [useState] variables of [SearchBar]. *)
Record State := {
  search : jsstring;
  suggestions : list Suggestion;
  loading : bool;
  showSuggestions : bool;
  highlightedIndex : Z
}.

(** The closure that [updateURL] hands to [setTimeout]: it captures the
    [searchParams] of the render that created [updateURL] and the
    [searchTerm] argument. *)
Inductive Callback :=
| UrlUpdate (captured : URLSearchParams.t) (searchTerm : jsstring).

Record Timer := { due : N; callback : Callback }.

(** What a [throw] carries. *)
Inductive Exn :=
| TypeError
| SyntaxError
| ServiceError (message : jsstring).

(** The component instance in its environment. *)
Record World := {
  ui : State;
  (* refs: [null] or a timer id *)
  searchTimeoutRef : option N;
  urlUpdateTimeoutRef : option N;
  (* [useSearchParams()] at the last render *)
  searchParams : URLSearchParams.t;
  (* the clock and the pending timers, oldest first *)
  now : N;
  timers : list (N * Timer);
  next_timer_id : N;
  (* [router.push] calls, oldest first *)
  navigations : list Href;
  (* [getRecipeSuggestions] calls, oldest first, and how many have settled *)
  service_calls : list jsstring;
  settled : nat;
  (* [console.error] calls, oldest first *)
  console : list Exn
}.

Definition with_search v (s : State) : State :=
  {| search := v; suggestions := suggestions s; loading := loading s;
     showSuggestions := showSuggestions s;
     highlightedIndex := highlightedIndex s |}.

Definition with_suggestions v (s : State) : State :=
  {| search := search s; suggestions := v; loading := loading s;
     showSuggestions := showSuggestions s;
     highlightedIndex := highlightedIndex s |}.

Definition with_loading v (s : State) : State :=
  {| search := search s; suggestions := suggestions s; loading := v;
     showSuggestions := showSuggestions s;
     highlightedIndex := highlightedIndex s |}.

Definition with_showSuggestions v (s : State) : State :=
  {| search := search s; suggestions := suggestions s; loading := loading s;
     showSuggestions := v; highlightedIndex := highlightedIndex s |}.

Definition with_highlightedIndex v (s : State) : State :=
  {| search := search s; suggestions := suggestions s; loading := loading s;
     showSuggestions := showSuggestions s; highlightedIndex := v |}.

Definition with_ui v (w : World) : World :=
  {| ui := v; searchTimeoutRef := searchTimeoutRef w;
     urlUpdateTimeoutRef := urlUpdateTimeoutRef w;
     searchParams := searchParams w; now := now w; timers := timers w;
     next_timer_id := next_timer_id w; navigations := navigations w;
     service_calls := service_calls w; settled := settled w;
     console := console w |}.

Definition with_urlUpdateTimeoutRef v (w : World) : World :=
  {| ui := ui w; searchTimeoutRef := searchTimeoutRef w;
     urlUpdateTimeoutRef := v;
     searchParams := searchParams w; now := now w; timers := timers w;
     next_timer_id := next_timer_id w; navigations := navigations w;
     service_calls := service_calls w; settled := settled w;
     console := console w |}.

Definition with_searchParams v (w : World) : World :=
  {| ui := ui w; searchTimeoutRef := searchTimeoutRef w;
     urlUpdateTimeoutRef := urlUpdateTimeoutRef w;
     searchParams := v; now := now w; timers := timers w;
     next_timer_id := next_timer_id w; navigations := navigations w;
     service_calls := service_calls w; settled := settled w;
     console := console w |}.

Definition with_clock t ts (w : World) : World :=
  {| ui := ui w; searchTimeoutRef := searchTimeoutRef w;
     urlUpdateTimeoutRef := urlUpdateTimeoutRef w;
     searchParams := searchParams w; now := t; timers := ts;
     next_timer_id := next_timer_id w; navigations := navigations w;
     service_calls := service_calls w; settled := settled w;
     console := console w |}.

Definition with_timers ts next (w : World) : World :=
  {| ui := ui w; searchTimeoutRef := searchTimeoutRef w;
     urlUpdateTimeoutRef := urlUpdateTimeoutRef w;
     searchParams := searchParams w; now := now w; timers := ts;
     next_timer_id := next; navigations := navigations w;
     service_calls := service_calls w; settled := settled w;
     console := console w |}.

Definition with_navigations v (w : World) : World :=
  {| ui := ui w; searchTimeoutRef := searchTimeoutRef w;
     urlUpdateTimeoutRef := urlUpdateTimeoutRef w;
     searchParams := searchParams w; now := now w; timers := timers w;
     next_timer_id := next_timer_id w; navigations := v;
     service_calls := service_calls w; settled := settled w;
     console := console w |}.

Definition with_service calls done (w : World) : World :=
  {| ui := ui w; searchTimeoutRef := searchTimeoutRef w;
     urlUpdateTimeoutRef := urlUpdateTimeoutRef w;
     searchParams := searchParams w; now := now w; timers := timers w;
     next_timer_id := next_timer_id w; navigations := navigations w;
     service_calls := calls; settled := done;
     console := console w |}.

Definition with_console v (w : World) : World :=
  {| ui := ui w; searchTimeoutRef := searchTimeoutRef w;
     urlUpdateTimeoutRef := urlUpdateTimeoutRef w;
     searchParams := searchParams w; now := now w; timers := timers w;
     next_timer_id := next_timer_id w; navigations := navigations w;
     service_calls := service_calls w; settled := settled w;
     console := v |}.

(** ** Handlers as computations *)

(** How a computation ends: normally with a value, or by throwing. *)
Inductive Res (A : Type) :=
| Ok (a : A)
| Throw (e : Exn).
Arguments Ok {A} a.
Arguments Throw {A} e.

Definition M (A : Type) : Type := World -> Res A * World.

Definition ret {A} (a : A) : M A := fun w => (Ok a, w).

Definition bind {A B} (m : M A) (k : A -> M B) : M B :=
  fun w =>
    match m w with
    | (Ok a, w') => k a w'
    | (Throw e, w') => (Throw e, w')
    end.

Definition throw {A} (e : Exn) : M A := fun w => (Throw e, w).

(** [try { m } catch (e) { h e }] *)
Definition try_catch {A} (m : M A) (h : Exn -> M A) : M A :=
  fun w =>
    match m w with
    | (Ok a, w') => (Ok a, w')
    | (Throw e, w') => h e w'
    end.

(** [try { m } finally { f }] *)
Definition try_finally {A} (m : M A) (f : M unit) : M A :=
  fun w =>
    match m w with
    | (r, w') =>
        match f w' with
        | (Ok _, w'') => (r, w'')
        | (Throw e, w'') => (Throw e, w'')
        end
    end.

Definition modify (f : World -> World) : M unit := fun w => (Ok tt, f w).

Definition gets {A} (f : World -> A) : M A := fun w => (Ok (f w), w).

Definition when (b : bool) (m : M unit) : M unit := if b then m else ret tt.

Declare Scope js_scope.
Delimit Scope js_scope with js.
Notation "x <- m ;; k" := (bind m (fun x => k))
  (at level 61, m at next level, right associativity) : js_scope.
Notation "m ;; k" := (bind m (fun _ => k))
  (at level 61, right associativity) : js_scope.
Open Scope js_scope.

(** The world a computation leaves behind. *)
Definition exec {A} (m : M A) (w : World) : World := snd (m w).

(** ** React setters, timers, the router and the suggestion service *)

Definition setSearch (v : jsstring) : M unit :=
  modify (fun w => with_ui (with_search v (ui w)) w).

Definition setSuggestions (v : list Suggestion) : M unit :=
  modify (fun w => with_ui (with_suggestions v (ui w)) w).

Definition setLoading (v : bool) : M unit :=
  modify (fun w => with_ui (with_loading v (ui w)) w).

Definition setShowSuggestions (v : bool) : M unit :=
  modify (fun w => with_ui (with_showSuggestions v (ui w)) w).

Definition setHighlightedIndex (v : Z) : M unit :=
  modify (fun w => with_ui (with_highlightedIndex v (ui w)) w).

(** [setHighlightedIndex((prev) => f(prev))]: the updater receives the
    pending value. *)
Definition setHighlightedIndex_by (f : Z -> Z) : M unit :=
  modify (fun w =>
    with_ui (with_highlightedIndex (f (highlightedIndex (ui w))) (ui w)) w).

(** [if (ref.current)]: a ref holding [null] or the id [0] is falsy. *)
Definition ref_truthy (r : option N) : bool :=
  match r with
  | Some i => negb (i =? 0)%N
  | None => false
  end.

(** [setTimeout(cb, delay)] queues [cb] and returns the new timer's id. *)
Definition setTimeout (cb : Callback) (delay : N) : M N :=
  fun w =>
    let i := next_timer_id w in
    (Ok i,
     with_timers (timers w ++ [(i, {| due := now w + delay; callback := cb |})])
                 (N.succ i) w).

(** [clearTimeout(h)] drops the pending timer of that id, if there is one. *)
Definition clearTimeout (h : option N) : M unit :=
  match h with
  | Some i =>
      modify (fun w =>
        with_timers (filter (fun x => negb (fst x =? i)%N) (timers w))
                    (next_timer_id w) w)
  | None => ret tt
  end.

Definition router_push (h : Href) : M unit :=
  modify (fun w => with_navigations (navigations w ++ [h]) w).

(** The call [getRecipeSuggestions(value)] as the service sees it; its
    answer arrives later, as an [Outcome]. *)
Definition getRecipeSuggestions (value : jsstring) : M unit :=
  modify (fun w => with_service (service_calls w ++ [value]) (settled w) w).

Definition console_error (e : Exn) : M unit :=
  modify (fun w => with_console (console w ++ [e]) w).

(** How the awaited promise settles. *)
Inductive Outcome :=
| Resolved (results : list Suggestion)
| Rejected (error : Exn).

Definition await (o : Outcome) : M (list Suggestion) :=
  match o with
  | Resolved results => ret results
  | Rejected error => throw error
  end.

(** The body of the timer callback of [updateURL]. *)
Definition run_callback (cb : Callback) : M unit :=
  match cb with
  | UrlUpdate captured searchTerm =>
      let params := URLSearchParams.of_toString captured in
      let params :=
        if JS.truthy (JS.trim searchTerm)
        then URLSearchParams.set (str "search") searchTerm params
        else URLSearchParams.delete (str "search") params in
      let params := URLSearchParams.delete (str "page") params in
      router_push (root_with params)
  end.

(** [fetchSuggestions(value)] up to its [await]: the guard, or the request. *)
Definition fetchSuggestions (value : jsstring) : M unit :=
  if negb (JS.truthy (JS.trim value)) || (JS.length value <? 3)%Z then
    setSuggestions [] ;;
    setShowSuggestions false
  else
    setLoading true ;;
    getRecipeSuggestions value.

(** [fetchSuggestions] from its [await] on, once the promise has settled. *)
Definition fetchSuggestions_resume (o : Outcome) : M unit :=
  try_finally
    (try_catch
       (results <- await o ;;
        setSuggestions results ;;
        setShowSuggestions true)
       (fun error =>
          console_error error ;;
          setSuggestions []))
    (setLoading false).

(** ** The handlers of one render *)

Section Render.

(** The render whose closures the handlers are: state variables and
    [searchParams] are read from it, refs are read live. *)
Variable r : World.

Definition updateURL (searchTerm : jsstring) : M unit :=
  cur <- gets urlUpdateTimeoutRef ;;
  when (ref_truthy cur) (clearTimeout cur) ;;
  i <- setTimeout (UrlUpdate (searchParams r) searchTerm) 500 ;;
  modify (with_urlUpdateTimeoutRef (Some i)).

Definition handleInputChange (value : jsstring) : M unit :=
  setSearch value ;;
  setHighlightedIndex (-1) ;;
  cur <- gets searchTimeoutRef ;;
  when (ref_truthy cur) (clearTimeout cur) ;;
  (if (2 <=? JS.length value)%Z then
     setShowSuggestions true ;;
     fetchSuggestions value
   else
     setShowSuggestions false ;;
     setSuggestions []) ;;
  updateURL value.

(** The argument is [None] for [undefined], which is what indexing the
    array out of range gives; reading [.title] of it throws. *)
Definition handleSuggestionClick (suggestion : option Suggestion) : M unit :=
  match suggestion with
  | None => throw TypeError
  | Some s =>
      let searchTerm := title s in
      setSearch searchTerm ;;
      setShowSuggestions false ;;
      cur <- gets urlUpdateTimeoutRef ;;
      when (ref_truthy cur) (clearTimeout cur) ;;
      let params := URLSearchParams.of_toString (searchParams r) in
      let params := URLSearchParams.set (str "search") searchTerm params in
      let params := URLSearchParams.delete (str "page") params in
      router_push (root_with params)
  end.

(** [e.preventDefault()] acts on the event object only and is left out. *)
Definition handleKeyDown (key : jsstring) : M unit :=
  if negb (showSuggestions (ui r)) then ret tt
  else if JS.eqb key (str "ArrowDown") then
    setHighlightedIndex_by (fun prev =>
      if (prev <? JS.length_of (suggestions (ui r)) - 1)%Z
      then (prev + 1)%Z else prev)
  else if JS.eqb key (str "ArrowUp") then
    setHighlightedIndex_by (fun prev =>
      if (prev >? 0)%Z then (prev - 1)%Z else (-1)%Z)
  else if JS.eqb key (str "Enter") then
    if (highlightedIndex (ui r) >=? 0)%Z then
      handleSuggestionClick
        (nth_error (suggestions (ui r)) (Z.to_nat (highlightedIndex (ui r))))
    else
      setShowSuggestions false ;;
      updateURL (search (ui r))
  else if JS.eqb key (str "Escape") then
    setShowSuggestions false
  else ret tt.

(** [onToggle()] is the parent's callback; it changes nothing here. *)
Definition resetSearch : M unit :=
  setSearch (str "") ;;
  setSuggestions [] ;;
  setShowSuggestions false ;;
  setHighlightedIndex (-1) ;;
  cur <- gets urlUpdateTimeoutRef ;;
  when (ref_truthy cur) (clearTimeout cur) ;;
  let params := URLSearchParams.of_toString (searchParams r) in
  let params := URLSearchParams.delete (str "search") params in
  let params := URLSearchParams.delete (str "page") params in
  router_push (root_with params).

(** The panel [div] exists, and [suggestionsRef.current] with it, when
    [showSuggestions && search.length >= 3]. *)
Definition panel_rendered : bool :=
  showSuggestions (ui r) && (JS.length (search (ui r)) >=? 3)%Z.

(** The suggestion rows on screen. *)
Definition rendered_rows : list Suggestion :=
  if panel_rendered && negb (loading (ui r)) then suggestions (ui r) else [].

(** [mousedown] on the document; the flags say whether the target lies in
    the panel and in the input. *)
Definition handleClickOutside (in_panel in_input : bool) : M unit :=
  when (panel_rendered && negb in_panel && negb in_input)
       (setShowSuggestions false).

End Render.

(** ** Mounting, events and the passage of time *)

(** The state at mount: [useState(searchParams.get("search") || "")] and the
    other initial values; no timer, no call, nothing navigated. *)
Definition initial (params : URLSearchParams.t) : World :=
  {| ui := {| search :=
                match URLSearchParams.get (str "search") params with
                | Some v => if JS.truthy v then v else str ""
                | None => str ""
                end;
              suggestions := [];
              loading := false;
              showSuggestions := false;
              highlightedIndex := -1 |};
     searchTimeoutRef := None;
     urlUpdateTimeoutRef := None;
     searchParams := params;
     now := 0;
     timers := [];
     next_timer_id := 1;
     navigations := [];
     service_calls := [];
     settled := 0;
     console := [] |}.

(** Pending timers in firing order: by due time, and by age among equals. *)
Fixpoint insert_due (x : N * Timer) (l : list (N * Timer)) : list (N * Timer) :=
  match l with
  | [] => [x]
  | y :: l' =>
      if (due (snd x) <=? due (snd y))%N then x :: l else y :: insert_due x l'
  end.

Definition sort_due (l : list (N * Timer)) : list (N * Timer) :=
  fold_right insert_due [] l.

Definition is_due (t : N) (x : N * Timer) : bool := (due (snd x) <=? t)%N.

Definition fire (w : World) (x : N * Timer) : World :=
  exec (run_callback (callback (snd x))) w.

(** [d] time units pass: every timer due by then fires, in order. *)
Definition elapse (d : N) (w : World) : World :=
  let t := (now w + d)%N in
  fold_left fire
    (sort_due (filter (is_due t) (timers w)))
    (with_clock t (filter (fun x => negb (is_due t x)) (timers w)) w).

(** The clear button exists when [search] is truthy. *)
Definition clear_button_rendered (w : World) : bool := JS.truthy (search (ui w)).

Inductive Event :=
| InputChange (value : jsstring)        (* [onChange] of the input *)
| KeyDown (key : jsstring)              (* [onKeyDown] of the input *)
| RowClick (index : nat)                (* [onClick] of a suggestion row *)
| RowMouseEnter (index : nat)           (* [onMouseEnter] of a suggestion row *)
| ClearClick                            (* [onClick] of the clear button *)
| MouseDown (in_panel in_input : bool)  (* [mousedown] on the document *)
| FetchSettled (o : Outcome)            (* an awaited service call settles *)
| Elapse (d : N)                        (* time passes *)
| SearchParamsChanged (p : URLSearchParams.t). (* a render with a new URL *)

(** One event, handled by the closures of the current render.  Events of
    elements that are not on screen, and answers nobody waits for, cannot
    happen and leave the world as it is. *)
Definition step (ev : Event) (w : World) : World :=
  match ev with
  | InputChange value => exec (handleInputChange w value) w
  | KeyDown key => exec (handleKeyDown w key) w
  | RowClick index =>
      match nth_error (rendered_rows w) index with
      | Some s => exec (handleSuggestionClick w (Some s)) w
      | None => w
      end
  | RowMouseEnter index =>
      match nth_error (rendered_rows w) index with
      | Some _ => exec (setHighlightedIndex (Z.of_nat index)) w
      | None => w
      end
  | ClearClick =>
      if clear_button_rendered w then exec (resetSearch w) w else w
  | MouseDown in_panel in_input =>
      exec (handleClickOutside w in_panel in_input) w
  | FetchSettled o =>
      if (settled w <? List.length (service_calls w))%nat then
        exec (fetchSuggestions_resume o)
             (with_service (service_calls w) (S (settled w)) w)
      else w
  | Elapse d => elapse d w
  | SearchParamsChanged p => with_searchParams p w
  end.

Definition run (evs : list Event) (w : World) : World :=
  fold_left (fun w ev => step ev w) evs w.

(** ** The match highlighter *)

(** A child of the fragment [highlightMatch] builds: a string, or a
    [span] of class [bg-teal-200 font-medium] around one. *)
Inductive Child :=
| Plain (part : jsstring)
| Span (part : jsstring).

(** What [highlightMatch] returns: [text] itself, or a fragment. *)
Inductive Node :=
| Text (text : jsstring)
| Fragment (children : list Child).

Definition child_text (c : Child) : jsstring :=
  match c with Plain p => p | Span p => p end.

Definition is_plain (c : Child) : bool :=
  match c with Plain _ => true | Span _ => false end.

(** [parts.map(f)] where [f] may throw: the first throw ends the loop. *)
Fixpoint map_res {A B} (f : A -> Res B) (l : list A) : Res (list B) :=
  match l with
  | [] => Ok []
  | x :: l' =>
      match f x with
      | Throw e => Throw e
      | Ok y =>
          match map_res f l' with
          | Throw e => Throw e
          | Ok ys => Ok (y :: ys)
          end
      end
  end.

Section Highlighter.

(** The regular expressions of the JavaScript engine, taken as given:
    - [RegExp_new pattern flags] is [new RegExp(pattern, flags)], which
      throws a [SyntaxError] on a pattern it cannot compile;
    - [split text re] is [text.split(re)]; with capture groups in [re] the
      captures are spliced into the result, [undefined] ([None]) for a
      group that took no part in a match;
    - [toLowerCase s] is [s.toLowerCase()]. *)
Variable RegExp : Type.
Variable RegExp_new : jsstring -> jsstring -> Res RegExp.
Variable split : jsstring -> RegExp -> list (option jsstring).
Variable toLowerCase : jsstring -> jsstring.

(** The template literal [`(${searchTerm})`]. *)
Definition pattern_of (searchTerm : jsstring) : jsstring :=
  JS.concat (str "(") (JS.concat searchTerm (str ")")).

(** Is [part] the search term, up to case? *)
Definition matches (searchTerm part : jsstring) : bool :=
  JS.eqb (toLowerCase part) (toLowerCase searchTerm).

(** A part that is the term up to case goes into a [span]. *)
Definition mark (searchTerm part : jsstring) : Child :=
  if matches searchTerm part then Span part else Plain part.

(** The callback of [parts.map]; [part.toLowerCase()] throws on
    [undefined]. *)
Definition highlight_part (searchTerm : jsstring) (part : option jsstring)
  : Res Child :=
  match part with
  | None => Throw TypeError
  | Some p => Ok (mark searchTerm p)
  end.

(** The [try] block of [highlightMatch]. *)
Definition highlight_try (text searchTerm : jsstring) : Res Node :=
  match RegExp_new (pattern_of searchTerm) (str "gi") with
  | Throw e => Throw e
  | Ok re =>
      match map_res (highlight_part searchTerm) (split text re) with
      | Throw e => Throw e
      | Ok children => Ok (Fragment children)
      end
  end.

Definition highlightMatch (text searchTerm : jsstring) : Node :=
  if negb (JS.truthy searchTerm) then Text text
  else
    match highlight_try text searchTerm with
    | Ok node => node
    | Throw _ => Text text
    end.

End Highlighter.

Arguments highlight_try {RegExp} RegExp_new split toLowerCase text searchTerm.
Arguments highlightMatch {RegExp} RegExp_new split toLowerCase text searchTerm.

(** A stand-in for the engine on the search terms that are plain ASCII
    words: it compiles [(w)] for a term [w] free of pattern syntax and
    finds [w] regardless of ASCII case; every other pattern it refuses.  The
    JavaScript engine refuses fewer patterns; both refuse [(()]. *)
Module LiteralEngine.

Definition RegExp := jsstring.

Definition is_syntax (c : N) : bool :=
  existsb (N.eqb c) (str "\^$.|?*+()[]{}").

Definition lower (c : N) : N :=
  if ((65 <=? c) && (c <=? 90))%N then (c + 32)%N else c.

Definition toLowerCase (s : jsstring) : jsstring := List.map lower s.

Definition RegExp_new (pattern flags : jsstring) : Res RegExp :=
  match pattern with
  | 40%N :: rest =>
      match rev rest with
      | 41%N :: body =>
          if existsb is_syntax body then Throw SyntaxError
          else Ok (toLowerCase (rev body))
      | _ => Throw SyntaxError
      end
  | _ => Throw SyntaxError
  end.

(** Does [text] start with the (lower-case) word, up to case? *)
Fixpoint starts_with (word text : jsstring) : bool :=
  match word, text with
  | [], _ => true
  | c :: word', d :: text' => N.eqb c (lower d) && starts_with word' text'
  | _ :: _, [] => false
  end.

(** [piece] holds, reversed, the code units since the last match. *)
Fixpoint split_from (fuel : nat) (word piece text : jsstring)
  : list (option jsstring) :=
  match fuel with
  | O => [Some (rev piece ++ text)]
  | S fuel' =>
      match text with
      | [] => [Some (rev piece)]
      | c :: text' =>
          if JS.truthy word && starts_with word text then
            Some (rev piece)
            :: Some (firstn (List.length word) text)
            :: split_from fuel' word [] (skipn (List.length word) text)
          else split_from fuel' word (c :: piece) text'
      end
  end.

Definition split (text : jsstring) (re : RegExp) : list (option jsstring) :=
  split_from (List.length text) re [] text.

Definition highlight : jsstring -> jsstring -> Node :=
  highlightMatch RegExp_new split toLowerCase.

End LiteralEngine.

(** ** The URL-sync timer *)

(** Every pending timer is the one [urlUpdateTimeoutRef] holds, under a
    truthy id, and fresh ids are truthy: the timers of the environment are
    those of this component's scheduler. *)
Definition timers_owned (w : World) : bool :=
  negb (next_timer_id w =? 0)%N
  && forallb (fun x =>
                match urlUpdateTimeoutRef w with
                | Some i => (fst x =? i)%N && negb (i =? 0)%N
                | None => false
                end)
             (timers w).

(** The query parameters a URL update for [query] navigates to, from the
    parameters [sp]. *)
Definition synced_params (sp : URLSearchParams.t) (query : jsstring)
  : URLSearchParams.t :=
  URLSearchParams.delete (str "page")
    (if JS.truthy (JS.trim query)
     then URLSearchParams.set (str "search") query sp
     else URLSearchParams.delete (str "search") sp).

(** Calls of [updateURL], each after a gap since the one before. *)
Fixpoint schedule_calls (calls : list (N * jsstring)) (w : World) : World :=
  match calls with
  | [] => w
  | (gap, query) :: rest =>
      let w1 := elapse gap w in
      schedule_calls rest (exec (updateURL w1 query) w1)
  end.

(** ** The highlighted index *)

(** [highlightedIndex] is [-1] or the position of a suggestion. *)
Definition in_range (w : World) : Prop :=
  (-1 <= highlightedIndex (ui w)
      <= JS.length_of (suggestions (ui w)) - 1)%Z.

Definition is_fetch_settled (ev : Event) : bool :=
  match ev with FetchSettled _ => true | _ => false end.

(** ** Unmounting and typing *)

(** The cleanup of the last effect of [SearchBar], run on unmount: both
    timeout refs are cleared when they hold something. *)
Definition cleanup : M unit :=
  s <- gets searchTimeoutRef ;;
  when (ref_truthy s) (clearTimeout s) ;;
  u <- gets urlUpdateTimeoutRef ;;
  when (ref_truthy u) (clearTimeout u).

(** Typing: a first text, then further texts, each after a gap. *)
Definition typing (first : jsstring) (rest : list (N * jsstring)) : list Event :=
  InputChange first
  :: flat_map (fun c => [Elapse (fst c); InputChange (snd c)]) rest.

(** A navigation of this component: to the root path, without [page]. *)
Definition root_without_page (h : Href) : Prop :=
  pathname h = str "/" /\ URLSearchParams.get (str "page") (query h) = None.

(** ** The theme toggle ([ThemeToggle]) *)

Module ThemeToggle.

(** The component's state and the parts of the browser it reads and
    writes. *)
Record Env := {
  isDarkMode : bool;          (* the [useState] variable *)
  theme : option jsstring;    (* [localStorage.getItem("theme")], [None] for [null] *)
  prefers_dark : bool;        (* [matchMedia("(prefers-color-scheme: dark)").matches] *)
  html_dark : bool            (* is [dark] in the class list of the root element? *)
}.

(** [savedTheme === "dark"] *)
Definition is_dark (savedTheme : option jsstring) : bool :=
  match savedTheme with
  | Some s => JS.eqb s (str "dark")
  | None => false
  end.

(** [!savedTheme]: [null] and the empty string are falsy. *)
Definition falsy (savedTheme : option jsstring) : bool :=
  match savedTheme with
  | Some s => negb (JS.truthy s)
  | None => true
  end.

(** The first render: [useState(false)], before any effect has run. *)
Definition mount (saved : option jsstring) (system_dark html : bool) : Env :=
  {| isDarkMode := false; theme := saved; prefers_dark := system_dark;
     html_dark := html |}.

(** The effect run after the first render. *)
Definition load (e : Env) : Env :=
  let savedTheme := theme e in
  let darkModePreferred :=
    is_dark savedTheme || (falsy savedTheme && prefers_dark e) in
  {| isDarkMode := darkModePreferred; theme := theme e;
     prefers_dark := prefers_dark e; html_dark := darkModePreferred |}.

Definition toggleTheme (e : Env) : Env :=
  let newTheme := negb (isDarkMode e) in
  {| isDarkMode := newTheme;
     theme := Some (if newTheme then str "dark" else str "light");
     prefers_dark := prefers_dark e;
     html_dark := newTheme |}.

End ThemeToggle.

(** ** The shopping-list button ([AddRecipeToListButton]) *)

Module ShoppingList.

(** An error object: whether it is a [TypeError], and its message. *)
Record Error := { is_TypeError : bool; error_message : jsstring }.

(** [new Error(message)] *)
Definition new_Error (message : jsstring) : Error :=
  {| is_TypeError := false; error_message := message |}.

(** What evaluating an expression gives: a value, or a throw. *)
Inductive Try (A : Type) :=
| Returns (a : A)
| Throws (e : Error).
Arguments Returns {A} a.
Arguments Throws {A} e.

(** An amount is what its [toString()] does. *)
Definition Amount := Try jsstring.

Record Item := { ingredient : jsstring; amount : jsstring }.

Record Request := { items : list Item; list_name : jsstring }.

Record Notification := { message : jsstring; type : jsstring }.

(** The response of [fetch]: its status, and how [response.json()] settles,
    the parsed body being given by what reading [data.error] does on it. *)
Record Response := { status : Z; json : Try (Try jsstring) }.

(** [response.ok] *)
Definition ok (response : Response) : bool :=
  (200 <=? status response)%Z && (status response <=? 299)%Z.

(** The button's state with its timers, its requests and the console. *)
Record Button := {
  isLoading : bool;
  notification : option Notification;
  clock : N;
  pending : list N;          (* due times of [() => setNotification(null)] *)
  requests : list Request;   (* [fetch] calls, oldest first *)
  logged : list Error        (* [console.error] calls, oldest first *)
}.

Definition setIsLoading (v : bool) (b : Button) : Button :=
  {| isLoading := v; notification := notification b; clock := clock b;
     pending := pending b; requests := requests b; logged := logged b |}.

Definition setNotification (v : option Notification) (b : Button) : Button :=
  {| isLoading := isLoading b; notification := v; clock := clock b;
     pending := pending b; requests := requests b; logged := logged b |}.

Definition showNotification (message type : jsstring) (b : Button) : Button :=
  let b := setNotification (Some {| message := message; type := type |}) b in
  {| isLoading := isLoading b; notification := notification b;
     clock := clock b; pending := pending b ++ [(clock b + 3000)%N];
     requests := requests b; logged := logged b |}.

(** [d] time units pass; a timer that comes due clears the notification. *)
Definition elapse (d : N) (b : Button) : Button :=
  let t := (clock b + d)%N in
  {| isLoading := isLoading b;
     notification :=
       if existsb (fun due => (due <=? t)%N) (pending b) then None
       else notification b;
     clock := t;
     pending := filter (fun due => negb (due <=? t)%N) (pending b);
     requests := requests b; logged := logged b |}.

(** [`${n} ingredients added to shopping list`] *)
Definition added_message (n : nat) : jsstring :=
  JS.concat (str (NilEmpty.string_of_uint (Nat.to_uint n)))
            (str " ingredients added to shopping list").

(** The message the outer [catch] block shows for [error]. *)
Definition errorMessage (error : Error) : jsstring :=
  if is_TypeError error
     && JS.eqb (error_message error) (str "Failed to fetch")
  then str "Network error: Please check your connection"
  else error_message error.

(** The outer [catch] block followed by [finally]. *)
Definition fail (error : Error) (b : Button) : Button :=
  let b := {| isLoading := isLoading b; notification := notification b;
              clock := clock b; pending := pending b;
              requests := requests b; logged := logged b ++ [error] |} in
  setIsLoading false (showNotification (errorMessage error) (str "error") b).

(** [Object.entries(ingredients).map(...)]: the first [toString()] that
    throws ends the loop. *)
Fixpoint to_items (ingredients : list (jsstring * Amount)) : Try (list Item) :=
  match ingredients with
  | [] => Returns []
  | (name, a) :: rest =>
      match a with
      | Throws e => Throws e
      | Returns s =>
          match to_items rest with
          | Throws e => Throws e
          | Returns l => Returns ({| ingredient := name; amount := s |} :: l)
          end
      end
  end.

(** [addIngredientsToList] up to [await fetch(...)]; [today] is
    [new Date().toLocaleDateString()].  The result says whether a request is
    now awaited, and with how many items. *)
Definition start (ingredients : list (jsstring * Amount)) (today : jsstring)
  (b : Button) : Button * option nat :=
  let b := setIsLoading true b in
  match to_items ingredients with
  | Throws e => (fail e b, None)
  | Returns l =>
      ({| isLoading := isLoading b; notification := notification b;
          clock := clock b; pending := pending b;
          requests := requests b
                      ++ [{| items := l;
                             list_name := JS.concat (str "Shopping List ") today |}];
          logged := logged b |},
       Some (List.length l))
  end.

(** The [catch (parseError)] block: the error it throws on. *)
Definition by_status (response : Response) : Error :=
  if (status response =? 404)%Z then
    new_Error (str "Shopping list endpoint not found")
  else if (status response =? 401)%Z then
    new_Error (str "Please sign in to add items to shopping list")
  else new_Error (str "Unexpected server response").

(** The inner [try] block once [response.json()] has settled. *)
Definition inner_try (n_items : nat) (response : Response) (b : Button)
  : Try Button :=
  match json response with
  | Throws e => Throws e
  | Returns data =>
      if negb (ok response) then
        match data with
        | Throws e => Throws e
        | Returns error =>
            Throws (new_Error
                      (if JS.truthy error then error
                       else str "Failed to add ingredients to shopping list"))
        end
      else Returns (showNotification (added_message n_items) (str "success") b)
  end.

(** [addIngredientsToList] from the settling of [fetch] to its end. *)
Definition finish (n_items : nat) (fetched : Try Response) (b : Button)
  : Button :=
  match fetched with
  | Throws e => fail e b
  | Returns response =>
      match inner_try n_items response b with
      | Returns b' => setIsLoading false b'
      | Throws _ => fail (by_status response) b
      end
  end.

End ShoppingList.

(** ** Signing out ([Header]) *)

Module Header.

Record Alert := { isVisible : bool; alert_message : jsstring; alert_type : jsstring }.

(** The part of the header [handleLogout] acts on, with its timers. *)
Record Nav := {
  isUserMenuOpen : bool;
  navAlertConfig : Alert;
  clock : N;
  pending : list (N * jsstring);  (* due times of [() => router.push(url)] *)
  pushed : list jsstring          (* [router.push] calls, oldest first *)
}.

Definition setIsUserMenuOpen (v : bool) (n : Nav) : Nav :=
  {| isUserMenuOpen := v; navAlertConfig := navAlertConfig n;
     clock := clock n; pending := pending n; pushed := pushed n |}.

Definition setNavAlertConfig (v : Alert) (n : Nav) : Nav :=
  {| isUserMenuOpen := isUserMenuOpen n; navAlertConfig := v;
     clock := clock n; pending := pending n; pushed := pushed n |}.

(** How [signOut(...)] settles: it rejects, or it resolves with a result
    whose [result?.url] is a string or [undefined]. *)
Inductive SignOut :=
| SignOutRejected
| SignOutResolved (url : option jsstring).

(** [handleLogout] up to its [await]. *)
Definition logout_start (n : Nav) : Nav := setIsUserMenuOpen false n.

(** [handleLogout] after its [await]. *)
Definition logout_finish (o : SignOut) (n : Nav) : Nav :=
  let failed :=
    setNavAlertConfig {| isVisible := true;
                         alert_message := str "Error signing out";
                         alert_type := str "error" |} n in
  match o with
  | SignOutRejected => failed
  | SignOutResolved None => failed
  | SignOutResolved (Some url) =>
      if JS.truthy url then
        let n := setNavAlertConfig
                   {| isVisible := true;
                      alert_message := str "Successfully signed out";
                      alert_type := str "success" |} n in
        {| isUserMenuOpen := isUserMenuOpen n;
           navAlertConfig := navAlertConfig n; clock := clock n;
           pending := pending n ++ [((clock n + 3000)%N, url)];
           pushed := pushed n |}
      else failed
  end.

(** [d] time units pass; the navigations that come due are made, the
    oldest first. *)
Definition elapse (d : N) (n : Nav) : Nav :=
  let t := (clock n + d)%N in
  {| isUserMenuOpen := isUserMenuOpen n; navAlertConfig := navAlertConfig n;
     clock := t;
     pending := filter (fun x => negb (fst x <=? t)%N) (pending n);
     pushed := pushed n
               ++ List.map snd (filter (fun x => (fst x <=? t)%N) (pending n)) |}.

End Header.

(** ** Events that leave the scheduler alone *)

(** The events whose handlers neither call [updateURL] nor clear its timer:
    every event but an input change, Enter, a click on a row and the clear
    button. *)
Definition leaves_scheduler (ev : Event) : bool :=
  match ev with
  | InputChange _ => false
  | KeyDown key => negb (JS.eqb key (str "Enter"))
  | RowClick _ => false
  | ClearClick => false
  | RowMouseEnter _ => true
  | MouseDown _ _ => true
  | FetchSettled _ => true
  | Elapse _ => true
  | SearchParamsChanged _ => true
  end.

(** The time that passes in a run of events. *)
Fixpoint elapsed (evs : list Event) : N :=
  match evs with
  | [] => 0
  | Elapse d :: evs' => d + elapsed evs'
  | _ :: evs' => elapsed evs'
  end.

(** ** Test data *)

Definition pizza (n : N) (t : string) : Suggestion :=
  {| id := n; title := str t; category := None |}.

Definition three_pizzas : list Suggestion :=
  [pizza 1 "Pizza Dough"; pizza 2 "Pizza Sauce"; pizza 3 "Pizza Bianca"].

(** The panel open on three suggestions, none highlighted. *)
Definition showing_three : World :=
  run [InputChange (str "piz"); FetchSettled (Resolved three_pizzas)]
      (initial []).

Definition two_ingredients : list (jsstring * ShoppingList.Amount) :=
  [(str "flour", ShoppingList.Returns (str "500 g"));
   (str "yeast", ShoppingList.Returns (str "7 g"))].

Definition idle_button : ShoppingList.Button :=
  {| ShoppingList.isLoading := false; ShoppingList.notification := None;
     ShoppingList.clock := 0; ShoppingList.pending := [];
     ShoppingList.requests := []; ShoppingList.logged := [] |}.

(** A late answer: three suggestions on screen, a longer text typed, the
    index moved to the third row, and then the answer to the longer text
    arrives with a single suggestion. *)
Definition stale_index : World :=
  run [InputChange (str "piz");
       FetchSettled (Resolved three_pizzas);
       InputChange (str "pizz");
       KeyDown (str "ArrowDown"); KeyDown (str "ArrowDown");
       KeyDown (str "ArrowDown");
       FetchSettled (Resolved [pizza 4 "Pizzelle"])]
      (initial []).

(** ** Sanity checks on concrete inputs *)

Example trim_spaces : JS.trim (str "  piz za ") = str "piz za".
Proof. reflexivity. Qed.

Example params_set_replaces :
  URLSearchParams.set (str "search") (str "b")
    [(str "search", str "a"); (str "page", str "2"); (str "search", str "c")]
  = [(str "search", str "b"); (str "page", str "2")].
Proof. reflexivity. Qed.

Example typing_piz_fetches :
  let w := run [InputChange (str "p"); InputChange (str "pi");
                InputChange (str "piz")] (initial []) in
  service_calls w = [str "piz"] /\ loading (ui w) = true
  /\ showSuggestions (ui w) = true /\ navigations w = [].
Proof. vm_compute. repeat split; reflexivity. Qed.

Example typing_piz_navigates_once :
  let w := run [InputChange (str "p"); Elapse 100; InputChange (str "pi");
                Elapse 100; InputChange (str "piz"); Elapse 500]
               (initial [(str "page", str "3")]) in
  navigations w = [root_with [(str "search", str "piz")]] /\ timers w = [].
Proof. vm_compute. split; reflexivity. Qed.

Example highlight_pizza_dough :
  LiteralEngine.highlight (str "Pizza Dough") (str "piz")
  = Fragment [Plain (str ""); Span (str "Piz"); Plain (str "za Dough")].
Proof. reflexivity. Qed.

Example highlight_open_paren :
  LiteralEngine.highlight (str "a(b") (str "(") = Text (str "a(b").
Proof. reflexivity. Qed.

(** ** Basic facts *)

Lemma eqb_refl (a : jsstring) : JS.eqb a a = true.
Proof.
  induction a as [|x a IH]; cbn; [reflexivity|].
  now rewrite N.eqb_refl, IH.
Qed.

Lemma eqb_eq (a b : jsstring) : JS.eqb a b = true <-> a = b.
Proof.
  split; [|intros ->; apply eqb_refl].
  revert b; induction a as [|x a IH]; intros [|y b]; cbn; try discriminate;
    [reflexivity|].
  intros H; apply andb_prop in H as [Hx Hab].
  apply N.eqb_eq in Hx; apply IH in Hab; congruence.
Qed.

Lemma eqb_neq (a b : jsstring) : JS.eqb a b = false <-> a <> b.
Proof.
  rewrite <- eqb_eq. destruct (JS.eqb a b); split; congruence.
Qed.

Lemma get_delete_same name p :
  URLSearchParams.get name (URLSearchParams.delete name p) = None.
Proof.
  induction p as [|[n v] p IH]; cbn; [reflexivity|].
  destruct (JS.eqb n name) eqn:E; cbn; [exact IH|now rewrite E].
Qed.

Lemma get_delete_other name other p :
  name <> other ->
  URLSearchParams.get name (URLSearchParams.delete other p)
  = URLSearchParams.get name p.
Proof.
  intros Hne; induction p as [|[n v] p IH]; cbn; [reflexivity|].
  destruct (JS.eqb n other) eqn:E; cbn.
  - apply eqb_eq in E; subst n.
    destruct (JS.eqb other name) eqn:E'; [|exact IH].
    apply eqb_eq in E'; congruence.
  - now rewrite IH.
Qed.

Lemma get_set_same name value p :
  JS.toWellFormed name = name ->
  URLSearchParams.get name (URLSearchParams.set name value p)
  = Some (JS.toWellFormed value).
Proof.
  intros Hname. unfold URLSearchParams.set. rewrite Hname.
  induction p as [|[n v] p IH]; cbn; [now rewrite eqb_refl|].
  destruct (JS.eqb n name) eqn:E; cbn; now rewrite E.
Qed.

Lemma toWellFormed_idempotent (s : jsstring) :
  JS.toWellFormed (JS.toWellFormed s) = JS.toWellFormed s.
Proof.
  assert (H : forall n s, (List.length s <= n)%nat ->
               JS.toWellFormed (JS.toWellFormed s) = JS.toWellFormed s).
  { induction n as [|n IH]; intros [|c t] Hlen; try reflexivity;
      cbn [List.length] in Hlen; [lia|].
    cbn [JS.toWellFormed].
    destruct (JS.is_high_surrogate c) eqn:Hc.
    - destruct t as [|d t']; [reflexivity|].
      destruct (JS.is_low_surrogate d) eqn:Hd.
      + cbn [JS.toWellFormed]. rewrite Hc, Hd. do 2 f_equal.
        apply IH. cbn [List.length] in Hlen. lia.
      + change (JS.toWellFormed (65533%N :: ?x))
          with (65533%N :: JS.toWellFormed x).
        f_equal. apply IH. lia.
    - destruct (JS.is_low_surrogate c) eqn:Hl.
      + change (JS.toWellFormed (65533%N :: ?x))
          with (65533%N :: JS.toWellFormed x).
        f_equal. apply IH. lia.
      + cbn [JS.toWellFormed]. rewrite Hc, Hl. f_equal. apply IH. lia. }
  exact (H (List.length s) s (le_n _)).
Qed.

Lemma search_is_not_page : str "search" <> str "page".
Proof. discriminate. Qed.

(** The world is its fields. *)
Lemma with_ui_same (w : World) : with_ui (ui w) w = w.
Proof. now destruct w. Qed.

Lemma with_highlightedIndex_same (s : State) :
  with_highlightedIndex (highlightedIndex s) s = s.
Proof. now destruct s. Qed.

Ltac unfold_m :=
  unfold setSearch, setSuggestions, setLoading, setShowSuggestions,
    setHighlightedIndex, setHighlightedIndex_by, router_push,
    getRecipeSuggestions, console_error, await in *;
  unfold exec, bind, ret, throw, try_catch, try_finally, modify, gets, when
    in *.

(** ** Mounting *)

(** C9: at mount the query is the URL's [search] parameter when there is
    one and the empty string otherwise; the suggestion list is empty, the
    loading flag is off, the panel is closed and no row is highlighted. *)
Theorem initial_state (params : URLSearchParams.t) :
  search (ui (initial params))
  = match URLSearchParams.get (str "search") params with
    | Some v => v
    | None => str ""
    end
  /\ suggestions (ui (initial params)) = []
  /\ loading (ui (initial params)) = false
  /\ showSuggestions (ui (initial params)) = false
  /\ highlightedIndex (ui (initial params)) = (-1)%Z.
Proof.
  unfold initial; cbn [ui search suggestions loading showSuggestions
                        highlightedIndex].
  split; [|now repeat split].
  now destruct (URLSearchParams.get (str "search") params) as [[|c v]|].
Qed.

(** ** Keyboard navigation *)

(** C10: while [showSuggestions] is false a key press changes nothing: the
    handler returns at once, whatever the key, so the state, the refs, the
    pending timers and the navigations are what they were; Enter in
    particular arms no timer and navigates nowhere, now or later. *)
Theorem keydown_closed_panel_noop (w : World) (key : jsstring) :
  showSuggestions (ui w) = false ->
  handleKeyDown w key w = (Ok tt, w)
  /\ step (KeyDown key) w = w
  /\ timers (step (KeyDown (str "Enter")) w) = timers w
  /\ (forall d, navigations (elapse d (step (KeyDown (str "Enter")) w))
                = navigations (elapse d w)).
Proof.
  intros Hw.
  assert (H : forall k, handleKeyDown w k w = (Ok tt, w)).
  { intros k. unfold handleKeyDown. now rewrite Hw. }
  cbn [step]. unfold exec. now rewrite !H.
Qed.

Lemma keydown_closed_panel_noop_witness :
  step (KeyDown (str "Enter")) (initial []) = initial [].
Proof.
  apply (keydown_closed_panel_noop (initial []) (str "Enter")); reflexivity.
Defined.

(** C5, as the code has it: with the panel shown and the index in the
    range of the list, ArrowDown moves the index to [min (index + 1) (N - 1)]
    and ArrowUp to [max (index - 1) (-1)], and nothing else changes;
    ArrowDown on an empty list or from the last row, and ArrowUp from [-1],
    change nothing. *)
Theorem arrow_keys (w : World) :
  showSuggestions (ui w) = true ->
  in_range w ->
  let n := JS.length_of (suggestions (ui w)) in
  let i := highlightedIndex (ui w) in
  step (KeyDown (str "ArrowDown")) w
  = with_ui (with_highlightedIndex (Z.min (i + 1) (n - 1)) (ui w)) w
  /\ step (KeyDown (str "ArrowUp")) w
     = with_ui (with_highlightedIndex (Z.max (i - 1) (-1)) (ui w)) w
  /\ (n = 0%Z -> step (KeyDown (str "ArrowDown")) w = w)
  /\ (i = (n - 1)%Z -> step (KeyDown (str "ArrowDown")) w = w)
  /\ (i = (-1)%Z -> step (KeyDown (str "ArrowUp")) w = w).
Proof.
  intros Hshow Hi. unfold in_range in Hi.
  set (n := JS.length_of (suggestions (ui w))) in *.
  set (i := highlightedIndex (ui w)) in *.
  assert (Hdown : step (KeyDown (str "ArrowDown")) w
                  = with_ui (with_highlightedIndex (Z.min (i + 1) (n - 1))
                                                   (ui w)) w).
  { cbn [step]. unfold handleKeyDown. rewrite Hshow. cbn. unfold_m. cbn.
    fold n i. destruct (Z.ltb_spec i (n - 1)); do 2 f_equal; lia. }
  assert (Hup : step (KeyDown (str "ArrowUp")) w
                = with_ui (with_highlightedIndex (Z.max (i - 1) (-1)) (ui w)) w).
  { cbn [step]. unfold handleKeyDown. rewrite Hshow. cbn. unfold_m. cbn.
    fold i. destruct (Z.gtb_spec i 0); do 2 f_equal; lia. }
  cbv zeta. repeat split; try assumption.
  - intros Hn. rewrite Hdown.
    replace (Z.min (i + 1) (n - 1)) with i by lia.
    subst i. now rewrite with_highlightedIndex_same, with_ui_same.
  - intros Hlast. rewrite Hdown.
    replace (Z.min (i + 1) (n - 1)) with i by lia.
    subst i. now rewrite with_highlightedIndex_same, with_ui_same.
  - intros Hnone. rewrite Hup.
    replace (Z.max (i - 1) (-1)) with i by lia.
    subst i. now rewrite with_highlightedIndex_same, with_ui_same.
Qed.

Lemma arrow_keys_witness :
  highlightedIndex (ui (step (KeyDown (str "ArrowDown")) showing_three)) = 0%Z
  /\ step (KeyDown (str "ArrowUp")) showing_three = showing_three.
Proof.
  destruct (arrow_keys showing_three) as (Hdown & _ & _ & _ & Hup);
    [reflexivity | unfold in_range; vm_compute; split; discriminate |].
  split; [now rewrite Hdown | now apply Hup].
Defined.

(** C5, as the specification states it, for every index and list, fails
    twice.  With the panel closed ArrowDown does nothing, here on three
    suggestions with none highlighted, where the minimum is 0.  And on an
    index beyond the list, here 2 on a list of one, ArrowDown leaves the
    index where the minimum is 0. *)
Lemma arrow_down_not_as_stated :
  ~ (let w := step (KeyDown (str "Escape")) showing_three in
     highlightedIndex (ui (step (KeyDown (str "ArrowDown")) w))
     = Z.min (highlightedIndex (ui w) + 1)
             (JS.length_of (suggestions (ui w)) - 1))
  /\ ~ (let w := stale_index in
        highlightedIndex (ui (step (KeyDown (str "ArrowDown")) w))
        = Z.min (highlightedIndex (ui w) + 1)
                (JS.length_of (suggestions (ui w)) - 1)).
Proof. split; vm_compute; discriminate. Qed.

(** ** The input handler and the fetcher *)

(** Case analysis on every test a handler makes, simplifying in between. *)
Ltac simp :=
  cbn -[JS.trim JS.length JS.length_of Z.leb Z.ltb Z.geb Z.gtb N.add N.leb
        nth_error Z.to_nat URLSearchParams.set URLSearchParams.delete
        URLSearchParams.get filter forallb app updateURL] in *.

Ltac crunch :=
  repeat (simp;
          match goal with
          | |- context [if ?b then _ else _] => destruct b eqn:?
          | |- context [match ?x with Some _ => _ | None => _ end] =>
              destruct x eqn:?
          end);
  simp.

Lemma trim_empty_iff (s : jsstring) :
  JS.truthy (JS.trim s) = false <-> JS.trim s = [].
Proof. destruct (JS.trim s); cbn; split; congruence. Qed.

Lemma trim_nonempty_iff (s : jsstring) :
  JS.truthy (JS.trim s) = true <-> JS.trim s <> [].
Proof. destruct (JS.trim s); cbn; split; congruence. Qed.

(** The tests' outcomes as propositions. *)
Ltac bools :=
  repeat match goal with
  | H : _ || _ = true |- _ => apply orb_true_iff in H as [H|H]
  | H : _ || _ = false |- _ => apply orb_false_iff in H as [? ?]
  | H : _ && _ = true |- _ => apply andb_true_iff in H as [? ?]
  | H : _ && _ = false |- _ => apply andb_false_iff in H as [H|H]
  | H : negb _ = true |- _ => apply negb_true_iff in H
  | H : negb _ = false |- _ => apply negb_false_iff in H
  | H : (_ <=? _)%Z = true |- _ => apply Z.leb_le in H
  | H : (_ <=? _)%Z = false |- _ => apply Z.leb_gt in H
  | H : (_ <? _)%Z = true |- _ => apply Z.ltb_lt in H
  | H : (_ <? _)%Z = false |- _ => apply Z.ltb_ge in H
  | H : (_ >=? _)%Z = true |- _ => rewrite Z.geb_leb in H
  | H : (_ >=? _)%Z = false |- _ => rewrite Z.geb_leb in H
  | H : (_ >? _)%Z = true |- _ => rewrite Z.gtb_ltb in H
  | H : (_ >? _)%Z = false |- _ => rewrite Z.gtb_ltb in H
  | H : JS.truthy (JS.trim _) = true |- _ => apply trim_nonempty_iff in H
  | H : JS.truthy (JS.trim _) = false |- _ => apply trim_empty_iff in H
  end.

Ltac unfold_handlers :=
  unfold handleInputChange, handleKeyDown, handleSuggestionClick, resetSearch,
    handleClickOutside, fetchSuggestions, fetchSuggestions_resume, updateURL,
    run_callback, clearTimeout, setTimeout in *;
  unfold_m.

(** What [handleInputChange] leaves in the React state. *)
Lemma handleInputChange_ui (w : World) (newText : jsstring) :
  let w' := exec (handleInputChange w newText) w in
  search (ui w') = newText
  /\ highlightedIndex (ui w') = (-1)%Z
  /\ ((3 <= JS.length newText)%Z /\ JS.trim newText <> [] ->
      showSuggestions (ui w') = true)
  /\ ((JS.length newText < 3)%Z \/ JS.trim newText = [] ->
      showSuggestions (ui w') = false /\ suggestions (ui w') = []).
Proof.
  unfold_handlers.
  destruct w as [u sref uref sp nw ts nid navs calls st cons].
  crunch; bools; repeat split; try tauto; try lia.
  all: intuition (try lia; congruence).
Qed.

(** C3, as the code has it: after [handleInputChange] (the guard of
    [fetchSuggestions] included) the query is the new text and no row is
    highlighted; [showSuggestions] is true when the text has at least three
    code units and is not all white space, and is false with the suggestion
    list cleared otherwise. *)
Theorem input_change (w : World) (newText : jsstring) :
  let w' := step (InputChange newText) w in
  search (ui w') = newText
  /\ highlightedIndex (ui w') = (-1)%Z
  /\ ((3 <= JS.length newText)%Z /\ JS.trim newText <> [] ->
      showSuggestions (ui w') = true)
  /\ ((JS.length newText < 3)%Z \/ JS.trim newText = [] ->
      showSuggestions (ui w') = false /\ suggestions (ui w') = []).
Proof. exact (handleInputChange_ui w newText). Qed.

(** C3, as the specification states it, fails on a two-letter text: the input handler
    opens the panel and the guard of the fetcher closes it again. *)
Lemma input_change_two_letters_closed :
  ~ (let w' := step (InputChange (str "pi")) (initial []) in
     (JS.length (str "pi") >= 2)%Z -> showSuggestions (ui w') = true).
Proof. vm_compute. intros H. specialize (H ltac:(discriminate)). discriminate. Qed.

Lemma input_change_witness :
  let w' := step (InputChange (str "piz")) (initial []) in
  showSuggestions (ui w') = true.
Proof.
  apply (input_change (initial []) (str "piz")).
  split; [vm_compute; discriminate | vm_compute; discriminate].
Defined.

(** C7: [fetchSuggestions] on a query that is all white space or shorter
    than three code units calls no service, clears the list and closes the
    panel; on any other query it calls the service with it.  Whenever and
    however the call settles, the rest of [fetchSuggestions] ends normally
    (nothing is thrown to the caller) with the loading flag off, and with the
    list cleared and the error on the console when the call failed. *)
Theorem fetch_suggestions (w : World) (value : jsstring) :
  let w' := exec (fetchSuggestions value) w in
  (JS.trim value = [] \/ (JS.length value < 3)%Z ->
   service_calls w' = service_calls w
   /\ suggestions (ui w') = []
   /\ showSuggestions (ui w') = false)
  /\ (JS.trim value <> [] /\ (3 <= JS.length value)%Z ->
      service_calls w' = service_calls w ++ [value]
      /\ loading (ui w') = true)
  /\ (forall (o : Outcome) (w1 : World),
      fst (fetchSuggestions_resume o w1) = Ok tt
      /\ loading (ui (exec (fetchSuggestions_resume o) w1)) = false)
  /\ (forall (results : list Suggestion) (w1 : World),
      suggestions (ui (exec (fetchSuggestions_resume (Resolved results)) w1))
      = results)
  /\ (forall (error : Exn) (w1 : World),
      suggestions (ui (exec (fetchSuggestions_resume (Rejected error)) w1)) = []
      /\ console (exec (fetchSuggestions_resume (Rejected error)) w1)
         = console w1 ++ [error]).
Proof.
  unfold_handlers. repeat split.
  1-5: crunch; bools; intuition (try lia; congruence).
  all: try destruct o; reflexivity.
Qed.

Lemma fetch_suggestions_witness :
  service_calls (exec (fetchSuggestions (str "pi")) showing_three) = [str "piz"]
  /\ service_calls (exec (fetchSuggestions (str "pizz")) showing_three)
     = [str "piz"; str "pizz"].
Proof.
  split.
  - apply (fetch_suggestions showing_three (str "pi")).
    right. vm_compute. reflexivity.
  - apply (fetch_suggestions showing_three (str "pizz")).
    split; vm_compute; discriminate.
Defined.

(** ** The URL-sync scheduler *)

Lemma owned_cancel (w : World) :
  timers_owned w = true ->
  when (ref_truthy (urlUpdateTimeoutRef w))
       (clearTimeout (urlUpdateTimeoutRef w)) w
  = (Ok tt, with_timers [] (next_timer_id w) w).
Proof.
  unfold timers_owned. intros H. apply andb_true_iff in H as [_ Hall].
  destruct w as [u sref uref sp nw ts nid navs calls st cons]; simp.
  destruct uref as [i|]; simp.
  - destruct (i =? 0)%N eqn:E; simp.
    + destruct ts; [reflexivity|]. cbn in Hall. now rewrite andb_false_r in Hall.
    + unfold modify, with_timers; simp. do 2 f_equal.
      induction ts as [|x ts IH]; [reflexivity|]. cbn in Hall |- *.
      apply andb_true_iff in Hall as [Hx Hall].
      rewrite andb_true_r in Hx. rewrite Hx. cbn. now apply IH.
  - destruct ts; [reflexivity|discriminate].
Qed.

Lemma updateURL_owned (r w : World) (query : jsstring) :
  timers_owned w = true ->
  exec (updateURL r query) w
  = with_urlUpdateTimeoutRef (Some (next_timer_id w))
      (with_timers
         [(next_timer_id w,
           {| due := now w + 500; callback := UrlUpdate (searchParams r) query |})]
         (N.succ (next_timer_id w)) w).
Proof.
  intros H. unfold updateURL, exec, bind, gets.
  now rewrite (owned_cancel w H).
Qed.

Lemma updateURL_keeps_owned (r w : World) (query : jsstring) :
  timers_owned w = true -> timers_owned (exec (updateURL r query) w) = true.
Proof.
  intros H. rewrite (updateURL_owned r w query H).
  unfold timers_owned in *. apply andb_true_iff in H as [Hn _].
  apply negb_true_iff, N.eqb_neq in Hn. cbn.
  rewrite N.eqb_refl. cbn.
  destruct (N.eqb_spec (N.succ (next_timer_id w)) 0); [lia|].
  destruct (N.eqb_spec (next_timer_id w) 0); [lia|reflexivity].
Qed.

Lemma elapse_no_timer (d : N) (w : World) :
  timers w = [] -> elapse d w = with_clock (now w + d) [] w.
Proof. unfold elapse. now intros ->. Qed.

Lemma elapse_one_timer (d : N) (w : World) (x : N * Timer) :
  timers w = [x] ->
  elapse d w
  = if (due (snd x) <=? now w + d)%N
    then fire (with_clock (now w + d) [] w) x
    else with_clock (now w + d) [x] w.
Proof.
  unfold elapse, is_due. intros ->. cbn.
  now destruct (due (snd x) <=? now w + d)%N.
Qed.

Lemma forallb_filter {A} (p g : A -> bool) (l : list A) :
  forallb p l = true -> forallb p (filter g l) = true.
Proof.
  induction l as [|x l IH]; [reflexivity|]. cbn. intros H.
  apply andb_true_iff in H as [Hx Hl].
  destruct (g x); cbn; [rewrite Hx|]; auto.
Qed.

Lemma fire_timers_owned (l : list (N * Timer)) (w : World) :
  timers_owned (fold_left fire l w) = timers_owned w.
Proof.
  revert w; induction l as [|x l IH]; intros w; [reflexivity|].
  cbn [fold_left]. rewrite IH. now destruct x as [i [t [sp q]]].
Qed.

Ltac owned_tac :=
  repeat match goal with
  | H : timers_owned _ = true |- _ =>
      unfold timers_owned in H; simp; apply andb_true_iff in H as [? ?]
  | |- timers_owned (snd (updateURL _ _ _)) = true =>
      apply updateURL_keeps_owned
  | |- timers_owned _ = true => unfold timers_owned; simp
  | |- _ && _ = true => apply andb_true_iff; split
  | |- forallb _ (filter _ _) = true => apply forallb_filter
  end; try assumption; try reflexivity.

(** The scheduler's timers are the only ones: no event breaks that. *)
Lemma step_timers_owned (ev : Event) (w : World) :
  timers_owned w = true -> timers_owned (step ev w) = true.
Proof.
  intros Hw. destruct ev; cbn [step].
  - unfold handleInputChange, fetchSuggestions, clearTimeout. unfold_m.
    destruct w as [u sref uref sp nw ts nid navs calls st cons].
    crunch; owned_tac.
  - unfold handleKeyDown, handleSuggestionClick, clearTimeout. unfold_m.
    destruct w as [u sref uref sp nw ts nid navs calls st cons].
    crunch; owned_tac.
  - unfold handleSuggestionClick, clearTimeout. unfold_m.
    destruct w as [u sref uref sp nw ts nid navs calls st cons].
    crunch; owned_tac.
  - destruct (nth_error (rendered_rows w) index); exact Hw.
  - unfold resetSearch, clearTimeout. unfold_m.
    destruct w as [u sref uref sp nw ts nid navs calls st cons].
    crunch; owned_tac.
  - unfold handleClickOutside. unfold_m.
    destruct (panel_rendered w && negb in_panel && negb in_input); exact Hw.
  - unfold fetchSuggestions_resume. unfold_m.
    destruct (settled w <? List.length (service_calls w))%nat; [|exact Hw].
    destruct o; exact Hw.
  - unfold elapse. rewrite fire_timers_owned.
    destruct w as [u sref uref sp nw ts nid navs calls st cons].
    owned_tac.
  - exact Hw.
Qed.

(** Every state the component reaches has only the scheduler's timers. *)
Lemma reachable_timers_owned (evs : list Event) (params : URLSearchParams.t) :
  timers_owned (run evs (initial params)) = true.
Proof.
  assert (H : forall w, timers_owned w = true -> timers_owned (run evs w) = true).
  { induction evs as [|ev evs IH]; intros w Hw; [exact Hw|].
    apply (IH (step ev w)). now apply step_timers_owned. }
  now apply H.
Qed.

Lemma elapse_keeps_armed (gap : N) (w : World) (x : N * Timer) :
  timers w = [x] -> (now w + gap < due (snd x))%N ->
  elapse gap w = with_clock (now w + gap) [x] w.
Proof.
  intros Ht Hlt. rewrite (elapse_one_timer gap w x Ht).
  destruct (N.leb_spec (due (snd x)) (now w + gap)); [lia|reflexivity].
Qed.

Lemma search_well_formed : JS.toWellFormed (str "search") = str "search".
Proof. reflexivity. Qed.

(** What the parameters of a URL update hold. *)
Lemma synced_params_facts (sp : URLSearchParams.t) (q : jsstring) :
  URLSearchParams.get (str "page") (synced_params sp q) = None
  /\ (JS.trim q <> [] ->
      synced_params sp q
      = URLSearchParams.delete (str "page")
          (URLSearchParams.set (str "search") q sp)
      /\ URLSearchParams.get (str "search") (synced_params sp q)
         = Some (JS.toWellFormed q))
  /\ (JS.trim q = [] ->
      synced_params sp q
      = URLSearchParams.delete (str "page")
          (URLSearchParams.delete (str "search") sp)
      /\ URLSearchParams.get (str "search") (synced_params sp q) = None).
Proof.
  unfold synced_params. split; [apply get_delete_same|]. split; intros Ht.
  - apply trim_nonempty_iff in Ht. rewrite Ht. split; [reflexivity|].
    rewrite get_delete_other by apply search_is_not_page.
    apply get_set_same, search_well_formed.
  - apply trim_empty_iff in Ht. rewrite Ht. split; [reflexivity|].
    rewrite get_delete_other by apply search_is_not_page.
    apply get_delete_same.
Qed.

(** An event that leaves the scheduler alone, other than the passing of
    time, changes neither the timers nor the clock nor the navigations. *)
Lemma quiet_step (ev : Event) (w : World) :
  leaves_scheduler ev = true ->
  (forall d, ev <> Elapse d) ->
  timers (step ev w) = timers w
  /\ now (step ev w) = now w
  /\ navigations (step ev w) = navigations w.
Proof.
  intros Hq Hne. destruct ev; try discriminate; cbn [step].
  - cbn [leaves_scheduler] in Hq. apply negb_true_iff in Hq.
    unfold handleKeyDown. rewrite Hq. unfold_m.
    destruct w as [u sref uref sp nw ts nid navs calls st cons].
    crunch; repeat split.
  - destruct (nth_error (rendered_rows w) index); repeat split.
  - unfold handleClickOutside. unfold_m.
    destruct (panel_rendered w && negb in_panel && negb in_input);
      repeat split.
  - unfold fetchSuggestions_resume. unfold_m.
    destruct (settled w <? List.length (service_calls w))%nat;
      [|repeat split].
    destruct o; repeat split.
  - now contradiction (Hne d).
  - repeat split.
Qed.

(** While less time passes than the timer has left, events that leave the
    scheduler alone keep the one pending timer and navigate nowhere. *)
Lemma quiet_run (evs : list Event) :
  forall (w : World) (x : N * Timer),
    timers w = [x] ->
    forallb leaves_scheduler evs = true ->
    (now w + elapsed evs < due (snd x))%N ->
    timers (run evs w) = [x]
    /\ now (run evs w) = (now w + elapsed evs)%N
    /\ navigations (run evs w) = navigations w.
Proof.
  induction evs as [|ev evs IH]; intros w x Ht Hq Hlt.
  - cbn. rewrite N.add_0_r. now repeat split.
  - cbn [forallb] in Hq. apply andb_true_iff in Hq as [Hev Hq].
    change (run (ev :: evs) w) with (run evs (step ev w)).
    destruct ev;
      try (destruct (quiet_step _ w Hev ltac:(discriminate)) as (E1 & E2 & E3);
           cbn [elapsed] in Hlt |- *;
           destruct (IH _ x (eq_trans E1 Ht) Hq ltac:(rewrite E2; exact Hlt))
             as (I1 & I2 & I3);
           rewrite I1, I2, I3, E2, E3; now repeat split).
    cbn [elapsed] in Hlt |- *. cbn [step].
    rewrite (elapse_keeps_armed d w x Ht) by lia.
    destruct (IH (with_clock (now w + d) [x] w) x eq_refl Hq
                 ltac:(cbn [now with_clock]; lia)) as (I1 & I2 & I3).
    rewrite I1, I2, I3. cbn [now navigations with_clock].
    repeat split. lia.
Qed.

(** C2, as the code has it: [updateURL] cancels the timer armed before and
    leaves exactly one, due 500 time units later.  Whatever happens in
    between that leaves the scheduler alone (also a change of the URL's
    parameters), nothing is navigated before the 500 units are over, and
    then there is one navigation, to the root path, whose parameters are
    those captured at the call, not those current at firing, with [search]
    set to the query as typed (not trimmed, as a well-formed string) when
    the query is not all white space, [search] removed otherwise, and [page]
    removed. *)
Theorem url_sync_fires
  (w : World) (term : jsstring) (evs : list Event) (d : N) :
  timers_owned w = true ->
  forallb leaves_scheduler evs = true ->
  (elapsed evs < 500)%N ->
  let w1 := exec (updateURL w term) w in
  let w2 := run evs w1 in
  timers w1
  = [(next_timer_id w,
      {| due := now w + 500; callback := UrlUpdate (searchParams w) term |})]
  /\ navigations w2 = navigations w
  /\ ((elapsed evs + d < 500)%N -> navigations (elapse d w2) = navigations w)
  /\ ((500 <= elapsed evs + d)%N ->
      exists h,
        navigations (elapse d w2) = navigations w ++ [h]
        /\ timers (elapse d w2) = []
        /\ pathname h = str "/"
        /\ URLSearchParams.get (str "page") (query h) = None
        /\ (JS.trim term <> [] ->
            query h
            = URLSearchParams.delete (str "page")
                (URLSearchParams.set (str "search") term (searchParams w))
            /\ URLSearchParams.get (str "search") (query h)
               = Some (JS.toWellFormed term))
        /\ (JS.trim term = [] ->
            query h
            = URLSearchParams.delete (str "page")
                (URLSearchParams.delete (str "search") (searchParams w))
            /\ URLSearchParams.get (str "search") (query h) = None)).
Proof.
  intros H Hq He w1 w2.
  assert (E1 : timers w1
               = [(next_timer_id w,
                   {| due := now w + 500;
                      callback := UrlUpdate (searchParams w) term |})]
               /\ now w1 = now w /\ navigations w1 = navigations w).
  { subst w1. rewrite (updateURL_owned w w term H). now repeat split. }
  destruct E1 as (Ht1 & Hn1 & Hv1).
  destruct (quiet_run evs w1 _ Ht1 Hq
              ltac:(rewrite Hn1; cbn [snd due]; lia)) as (Ht2 & Hn2 & Hv2).
  fold w2 in Ht2, Hn2, Hv2. clearbody w2 w1.
  split; [exact Ht1|]. split; [now rewrite Hv2|].
  rewrite (elapse_one_timer d w2 _ Ht2). cbn [snd due]. rewrite Hn2, Hn1.
  split; intros Hd.
  - destruct (N.leb_spec (now w + 500) (now w + elapsed evs + d)); [lia|].
    cbn [navigations with_clock]. now rewrite Hv2.
  - destruct (N.leb_spec (now w + 500) (now w + elapsed evs + d)); [|lia].
    destruct (synced_params_facts (searchParams w) term) as (Hp & Hs & Hn).
    exists {| pathname := str "/";
              query := synced_params (searchParams w) term |}.
    cbn [pathname query].
    split; [unfold fire, exec, run_callback; cbn; now rewrite Hv2, Hv1|].
    split; [reflexivity|]. split; [reflexivity|]. split; [exact Hp|].
    split; [exact Hs | exact Hn].
Qed.

(** C2, as the specification states it, fails in three ways.  A query with
    white space around it reaches the URL as typed, not trimmed.  A change
    of the URL's parameters between the call and the firing is lost: the
    navigation is built from the parameters of the call.  And a query with
    an unpaired surrogate reaches the URL with U+FFFD in its place. *)
Lemma url_sync_not_as_stated :
  ~ (let w := elapse 500 (exec (updateURL (initial []) (str " a")) (initial [])) in
     exists h, navigations w = [h]
               /\ URLSearchParams.get (str "search") (query h)
                  = Some (JS.trim (str " a")))
  /\ ~ (let w := step (SearchParamsChanged [(str "category", str "pasta")])
                   (exec (updateURL (initial []) (str "piz")) (initial [])) in
        exists h, navigations (elapse 500 w) = [h]
                  /\ query h
                     = URLSearchParams.delete (str "page")
                         (URLSearchParams.set (str "search") (str "piz")
                            (searchParams w)))
  /\ ~ (let q := 55357%N :: str "ab" in
        let w := elapse 500 (exec (updateURL (initial []) q) (initial [])) in
        exists h, navigations w = [h]
                  /\ URLSearchParams.get (str "search") (query h)
                     = Some (JS.trim q)).
Proof.
  split; [|split]; vm_compute; intros (h & Hnav & Hget);
    injection Hnav as <-; discriminate.
Qed.

Lemma url_sync_fires_witness :
  exists h,
    navigations
      (elapse 400
         (run [Elapse 100; SearchParamsChanged [(str "category", str "pasta")];
               KeyDown (str "Escape")]
              (exec (updateURL (initial [(str "page", str "2")]) (str "piz"))
                    (initial [(str "page", str "2")]))))
    = [h]
    /\ query h = [(str "search", str "piz")].
Proof.
  destruct (url_sync_fires (initial [(str "page", str "2")]) (str "piz")
              [Elapse 100; SearchParamsChanged [(str "category", str "pasta")];
               KeyDown (str "Escape")] 400)
    as (_ & _ & _ & H); [reflexivity | reflexivity | reflexivity |].
  destruct H as (h & Hnav & _ & _ & _ & Hs & _); [vm_compute; discriminate|].
  exists h. split; [exact Hnav|].
  destruct Hs as [Hq _]; [vm_compute; discriminate|]. exact Hq.
Defined.

Lemma last_cons {A} (a d : A) (l : list A) : last (a :: l) d = last l a.
Proof.
  revert a d; induction l as [|b l IH]; intros a d; [reflexivity|].
  change (last (a :: b :: l) d) with (last (b :: l) d).
  now rewrite !IH.
Qed.

(** After any run of calls less than 500 apart, the one pending timer is
    the last call's, due 500 after it, and nothing has been navigated. *)
Lemma schedule_calls_armed (calls : list (N * jsstring)) :
  forall (w : World) (q0 : jsstring),
    timers_owned w = true ->
    Forall (fun c => (fst c < 500)%N) calls ->
    let wn := schedule_calls calls (exec (updateURL w q0) w) in
    (exists i,
        timers wn
        = [(i, {| due := now wn + 500;
                  callback := UrlUpdate (searchParams w)
                                        (last (List.map snd calls) q0) |})])
    /\ navigations wn = navigations w.
Proof.
  induction calls as [|[gap q] rest IH]; intros w q0 Hown Hgaps wn.
  - subst wn. cbn [schedule_calls]. rewrite (updateURL_owned w w q0 Hown).
    split; [eexists; reflexivity | reflexivity].
  - subst wn. cbn [schedule_calls]. inversion Hgaps as [|c l Hgap Hrest]; subst.
    cbn [fst] in Hgap.
    set (w0 := exec (updateURL w q0) w) in *.
    assert (Hw0 : timers_owned w0 = true) by now apply updateURL_keeps_owned.
    assert (E : elapse gap w0
                = with_clock (now w0 + gap) (timers w0) w0).
    { unfold w0. rewrite (updateURL_owned w w q0 Hown).
      erewrite elapse_keeps_armed; [reflexivity | reflexivity | cbn; lia]. }
    rewrite E.
    set (w1 := with_clock (now w0 + gap) (timers w0) w0).
    assert (Hw1 : timers_owned w1 = true) by exact Hw0.
    destruct (IH w1 q Hw1 Hrest) as [[i Hi] Hnav].
    split.
    + exists i. rewrite Hi. cbn [List.map snd]. rewrite last_cons.
      unfold w1, w0. now rewrite (updateURL_owned w w q0 Hown).
    + rewrite Hnav. unfold w1, w0. now rewrite (updateURL_owned w w q0 Hown).
Qed.

(** C4: calls of [updateURL] that follow one another by less than 500 time
    units navigate nowhere while they last, and once 500 units have passed
    after the last of them there has been exactly one navigation: to the
    root path, with [page] removed and [search] set to the query of the last
    call (as a well-formed string; removed when that query is all white
    space), the queries of the earlier calls leaving no trace. *)
Theorem debounce_last_wins
  (w : World) (q0 : jsstring) (calls : list (N * jsstring)) (d : N) :
  timers_owned w = true ->
  Forall (fun c => (fst c < 500)%N) calls ->
  (500 <= d)%N ->
  let wn := schedule_calls calls (exec (updateURL w q0) w) in
  let final := last (List.map snd calls) q0 in
  navigations wn = navigations w
  /\ exists h,
       navigations (elapse d wn) = navigations w ++ [h]
       /\ timers (elapse d wn) = []
       /\ pathname h = str "/"
       /\ URLSearchParams.get (str "page") (query h) = None
       /\ (JS.trim final <> [] ->
           query h
           = URLSearchParams.delete (str "page")
               (URLSearchParams.set (str "search") final (searchParams w))
           /\ URLSearchParams.get (str "search") (query h)
              = Some (JS.toWellFormed final)
           /\ (JS.toWellFormed final = final ->
               URLSearchParams.get (str "search") (query h) = Some final))
       /\ (JS.trim final = [] ->
           query h
           = URLSearchParams.delete (str "page")
               (URLSearchParams.delete (str "search") (searchParams w))
           /\ URLSearchParams.get (str "search") (query h) = None).
Proof.
  intros Hown Hgaps Hd wn final.
  destruct (schedule_calls_armed calls w q0 Hown Hgaps) as [[i Hi] Hnav].
  fold wn final in Hi, Hnav. split; [exact Hnav|].
  clearbody wn. rewrite (elapse_one_timer d wn _ Hi). cbn [snd due].
  destruct (N.leb_spec (now wn + 500) (now wn + d)); [|lia].
  destruct (synced_params_facts (searchParams w) final) as (Hp & Hs & Hn).
  exists {| pathname := str "/"; query := synced_params (searchParams w) final |}.
  cbn [pathname query].
  split; [unfold fire, exec, run_callback; cbn; now rewrite Hnav|].
  split; [reflexivity|]. split; [reflexivity|]. split; [exact Hp|].
  split; [|exact Hn].
  intros Ht. destruct (Hs Ht) as [Hq Hg]. split; [exact Hq|].
  split; [exact Hg|]. intros Hwf. now rewrite Hg, Hwf.
Qed.

Lemma debounce_last_wins_witness :
  exists h,
    navigations
      (elapse 500
         (schedule_calls [(100%N, str "pi"); (100%N, str "piz")]
            (exec (updateURL (initial [(str "page", str "3")]) (str "p"))
                  (initial [(str "page", str "3")]))))
    = [h]
    /\ URLSearchParams.get (str "search") (query h) = Some (str "piz")
    /\ query h = [(str "search", str "piz")].
Proof.
  destruct (debounce_last_wins (initial [(str "page", str "3")]) (str "p")
              [(100%N, str "pi"); (100%N, str "piz")] 500)
    as (_ & h & Hnav & _ & _ & _ & Hs & _);
    [reflexivity | repeat constructor | lia |].
  destruct Hs as (Hq & _ & Hg); [vm_compute; discriminate|].
  exists h. split; [exact Hnav|]. split; [now apply Hg | exact Hq].
Defined.

(** ** Accepting a suggestion *)

(** C6, as the code has it: accepting a suggestion sets the query to its
    title, closes the panel and cancels the pending URL-sync timer; in the
    same step, with no time passing, it navigates to the root path with the
    current parameters, [page] removed and [search] set to the title as a
    well-formed string (the title itself when it has no unpaired
    surrogate); no navigation follows later. *)
Theorem suggestion_accepted (w : World) (s : Suggestion) :
  timers_owned w = true ->
  let w' := exec (handleSuggestionClick w (Some s)) w in
  search (ui w') = title s
  /\ showSuggestions (ui w') = false
  /\ timers w' = []
  /\ now w' = now w
  /\ (forall d, navigations (elapse d w') = navigations w')
  /\ exists h,
       navigations w' = navigations w ++ [h]
       /\ pathname h = str "/"
       /\ query h
          = URLSearchParams.delete (str "page")
              (URLSearchParams.set (str "search") (title s) (searchParams w))
       /\ URLSearchParams.get (str "search") (query h)
          = Some (JS.toWellFormed (title s))
       /\ (JS.toWellFormed (title s) = title s ->
           URLSearchParams.get (str "search") (query h) = Some (title s))
       /\ URLSearchParams.get (str "page") (query h) = None.
Proof.
  intros Hown w'.
  assert (E : w' = with_navigations
                     (navigations w
                      ++ [{| pathname := str "/";
                             query := URLSearchParams.delete (str "page")
                                        (URLSearchParams.set (str "search")
                                           (title s) (searchParams w)) |}])
                     (with_timers [] (next_timer_id w)
                        (with_ui (with_showSuggestions false
                                    (with_search (title s) (ui w))) w))).
  { subst w'. unfold handleSuggestionClick, exec, bind, gets.
    unfold setSearch at 1, setShowSuggestions at 1, modify at 1 2.
    set (w2 := with_ui _ (with_ui _ w)).
    assert (H2 : timers_owned w2 = true) by exact Hown.
    change (urlUpdateTimeoutRef w2) with (urlUpdateTimeoutRef w).
    change (urlUpdateTimeoutRef w) with (urlUpdateTimeoutRef w2) at 1 2.
    rewrite (owned_cancel w2 H2). reflexivity. }
  rewrite E. do 5 (split; [reflexivity|]).
  eexists. split; [reflexivity|]. cbn [pathname query].
  split; [reflexivity|]. split; [reflexivity|].
  assert (Hg : URLSearchParams.get (str "search")
                 (URLSearchParams.delete (str "page")
                    (URLSearchParams.set (str "search") (title s)
                       (searchParams w)))
               = Some (JS.toWellFormed (title s))).
  { rewrite get_delete_other by apply search_is_not_page.
    apply get_set_same, search_well_formed. }
  split; [exact Hg|]. split; [|apply get_delete_same].
  intros Hwf. now rewrite Hg, Hwf.
Qed.

(** C6, as the specification states it, fails on a title with an unpaired
    surrogate: the URL carries U+FFFD in its place, not the title. *)
Lemma suggestion_title_not_verbatim :
  ~ (let s := {| id := 9; title := 55357%N :: str "ab"; category := None |} in
     let w' := exec (handleSuggestionClick showing_three (Some s))
                    showing_three in
     exists h, navigations w' = [h]
               /\ URLSearchParams.get (str "search") (query h)
                  = Some (title s)).
Proof.
  vm_compute. intros (h & Hnav & Hget). injection Hnav as <-. discriminate.
Qed.

Lemma suggestion_accepted_witness :
  let w' := exec (handleSuggestionClick showing_three
                    (Some (pizza 2 "Pizza Sauce"))) showing_three in
  search (ui w') = str "Pizza Sauce"
  /\ exists h, navigations w' = [h]
               /\ URLSearchParams.get (str "search") (query h)
                  = Some (str "Pizza Sauce").
Proof.
  intros w'.
  destruct (suggestion_accepted showing_three (pizza 2 "Pizza Sauce"))
    as (Hs & _ & _ & _ & _ & h & Hnav & _ & _ & _ & Hg & _); [reflexivity|].
  split; [exact Hs|]. exists h. split; [exact Hnav|]. now apply Hg.
Defined.

(** ** The range of the highlighted index *)

Lemma fire_ui (w : World) (x : N * Timer) : ui (fire w x) = ui w.
Proof. unfold fire. destruct x as [i [t [sp q]]]. reflexivity. Qed.

Lemma elapse_ui (d : N) (w : World) : ui (elapse d w) = ui w.
Proof.
  assert (H : forall l w0, ui (fold_left fire l w0) = ui w0).
  { induction l as [|x l IH]; intros w0; [reflexivity|].
    cbn [fold_left]. now rewrite IH, fire_ui. }
  unfold elapse. now rewrite H.
Qed.

Lemma length_of_nonneg {A} (l : list A) : (0 <= JS.length_of l)%Z.
Proof. unfold JS.length_of. lia. Qed.

Lemma nth_error_length_of {A} (l : list A) (i : nat) (a : A) :
  nth_error l i = Some a -> (Z.of_nat i <= JS.length_of l - 1)%Z.
Proof.
  intros H. assert (i < List.length l)%nat by (apply nth_error_Some; congruence).
  unfold JS.length_of. lia.
Qed.

(** Every event but the settling of a fetch keeps the index in range. *)
Lemma step_in_range (ev : Event) (w : World) :
  is_fetch_settled ev = false -> in_range w -> in_range (step ev w).
Proof.
  unfold in_range. intros Hev Hw.
  destruct ev; try discriminate; cbn [step].
  - (* InputChange *)
    unfold_handlers.
    destruct w as [u sref uref sp nw ts nid navs calls st cons].
    crunch; pose proof (length_of_nonneg (suggestions u));
      unfold JS.length_of in *; cbn [List.length]; lia.
  - (* KeyDown *)
    unfold_handlers.
    destruct w as [u sref uref sp nw ts nid navs calls st cons].
    crunch; bools; lia.
  - (* RowClick *)
    unfold_handlers.
    destruct w as [u sref uref sp nw ts nid navs calls st cons].
    crunch; lia.
  - (* RowMouseEnter *)
    destruct (nth_error (rendered_rows w) index) as [s|] eqn:E; [|exact Hw].
    unfold_m. cbn [snd ui with_ui with_highlightedIndex highlightedIndex
                   suggestions].
    unfold rendered_rows in E.
    destruct (panel_rendered w && negb (loading (ui w))).
    + apply nth_error_length_of in E. lia.
    + now destruct index.
  - (* ClearClick *)
    unfold_handlers.
    destruct w as [u sref uref sp nw ts nid navs calls st cons].
    crunch; unfold JS.length_of in *; cbn [List.length]; lia.
  - (* MouseDown *)
    unfold_handlers. unfold panel_rendered.
    destruct w as [u sref uref sp nw ts nid navs calls st cons].
    crunch; lia.
  - (* Elapse *)
    now rewrite elapse_ui.
  - (* SearchParamsChanged *)
    exact Hw.
Qed.

(** No event takes the index below [-1]. *)
Lemma step_lower_bound (ev : Event) (w : World) :
  (-1 <= highlightedIndex (ui w))%Z ->
  (-1 <= highlightedIndex (ui (step ev w)))%Z.
Proof.
  intros Hw. destruct ev; cbn [step].
  1-3, 5-7: unfold_handlers; unfold panel_rendered;
    destruct w as [u sref uref sp nw ts nid navs calls st cons];
    try destruct o; crunch; bools; lia.
  - destruct (nth_error (rendered_rows w) index); [|exact Hw].
    unfold_m. cbn. lia.
  - now rewrite elapse_ui.
  - exact Hw.
Qed.

Lemma run_app (evs1 evs2 : list Event) (w : World) :
  run (evs1 ++ evs2) w = run evs2 (run evs1 w).
Proof. apply fold_left_app. Qed.

(** From a state with the index in range, every sequence of events in
    which no fetch settles (arrow keys and all other keys, input changes,
    clicks, pointer moves, time passing) leaves [highlightedIndex] in
    [[-1, N-1]] for the current list; under every sequence of events
    whatsoever it stays at or above [-1]; and it is reset to [-1] by every
    input change and by the clear button, which also clears the list and
    closes the panel. *)
Theorem highlighted_index_range (w : World) (evs : list Event) :
  in_range w ->
  (forallb (fun ev => negb (is_fetch_settled ev)) evs = true ->
   in_range (run evs w))
  /\ (-1 <= highlightedIndex (ui (run evs w)))%Z
  /\ (forall value,
      highlightedIndex (ui (step (InputChange value) (run evs w))) = (-1)%Z)
  /\ (clear_button_rendered (run evs w) = true ->
      let w' := step ClearClick (run evs w) in
      highlightedIndex (ui w') = (-1)%Z
      /\ suggestions (ui w') = []
      /\ showSuggestions (ui w') = false).
Proof.
  intros Hw. split; [|split; [|split]].
  - revert w Hw. induction evs as [|ev evs IH]; intros w Hw Hall; [exact Hw|].
    cbn in Hall. apply andb_true_iff in Hall as [Hev Hall].
    apply negb_true_iff in Hev.
    change (run (ev :: evs) w) with (run evs (step ev w)).
    apply IH; [now apply step_in_range | exact Hall].
  - assert (Hlow : (-1 <= highlightedIndex (ui w))%Z) by apply Hw.
    clear Hw. revert w Hlow.
    induction evs as [|ev evs IH]; intros w Hlow; [exact Hlow|].
    change (run (ev :: evs) w) with (run evs (step ev w)).
    apply IH. now apply step_lower_bound.
  - intros value. apply (handleInputChange_ui (run evs w) value).
  - intros Hclear. cbn [step]. rewrite Hclear.
    generalize (run evs w) as w0. intros w0. unfold_handlers.
    destruct w0 as [u sref uref sp nw ts nid navs calls st cons].
    crunch; repeat split.
Qed.

Lemma highlighted_index_range_witness :
  in_range (run [KeyDown (str "ArrowDown"); KeyDown (str "ArrowDown");
                 KeyDown (str "ArrowDown"); KeyDown (str "ArrowDown");
                 KeyDown (str "ArrowUp"); KeyDown (str "Escape")]
                showing_three).
Proof.
  apply (highlighted_index_range showing_three).
  - unfold in_range. vm_compute. split; discriminate.
  - reflexivity.
Defined.

(** C1: [highlightedIndex] is to stay within the current list and to be
    reset to [-1] whenever the list is replaced.  The input handler and the
    clear button reset it with the list; [fetchSuggestions] replaces the list
    and does not.  When the answer to a longer text arrives after the arrow
    keys have moved the index, the index stays on the third row of a list of
    one: it is out of range, and Enter then reads [undefined] from the list
    and throws. *)
Theorem stale_index_after_fetch :
  highlightedIndex (ui stale_index) = 2%Z
  /\ suggestions (ui stale_index) = [pizza 4 "Pizzelle"]
  /\ showSuggestions (ui stale_index) = true
  /\ ~ in_range stale_index
  /\ handleKeyDown stale_index (str "Enter") stale_index
     = (Throw TypeError, stale_index).
Proof.
  unfold in_range. vm_compute. repeat split. intros [_ H]. now apply H.
Qed.

(** Escape closes the panel and leaves the index on its row. *)
Example escape_keeps_index :
  let w := run [KeyDown (str "ArrowDown"); KeyDown (str "Escape")]
               showing_three in
  showSuggestions (ui w) = false /\ highlightedIndex (ui w) = 0%Z.
Proof. vm_compute. split; reflexivity. Qed.

(** The stale index reaches [handleSuggestionClick] as [undefined]: Enter
    then throws and changes nothing. *)
Example enter_on_stale_index :
  let w := run [InputChange (str "piz");
                FetchSettled (Resolved three_pizzas);
                InputChange (str "pizz");
                KeyDown (str "ArrowDown"); KeyDown (str "ArrowDown");
                KeyDown (str "ArrowDown");
                FetchSettled (Resolved [pizza 4 "Pizzelle"])]
               (initial []) in
  handleKeyDown w (str "Enter") w = (Throw TypeError, w).
Proof. vm_compute. reflexivity. Qed.

(** ** The match highlighter *)

Section HighlighterFacts.

Variable toLowerCase : jsstring -> jsstring.

Lemma map_res_defined (searchTerm : jsstring) (parts : list jsstring) :
  map_res (highlight_part toLowerCase searchTerm) (List.map Some parts)
  = Ok (List.map (mark toLowerCase searchTerm) parts).
Proof.
  induction parts as [|p parts IH]; [reflexivity|].
  cbn [List.map map_res highlight_part]. now rewrite IH.
Qed.

Lemma map_res_undefined (searchTerm : jsstring) (l : list (option jsstring)) :
  In None l ->
  map_res (highlight_part toLowerCase searchTerm) l = Throw TypeError.
Proof.
  induction l as [|[p|] l IH]; intros Hin; [contradiction| |reflexivity].
  destruct Hin as [Hin|Hin]; [discriminate|].
  cbn [map_res highlight_part]. now rewrite (IH Hin).
Qed.

Lemma marked_text (searchTerm : jsstring) (parts : list jsstring) :
  List.map child_text (List.map (mark toLowerCase searchTerm) parts) = parts.
Proof.
  induction parts as [|p parts IH]; [reflexivity|].
  cbn [List.map]. rewrite IH. unfold mark.
  now destruct (matches toLowerCase searchTerm p).
Qed.

Lemma plain_parts (searchTerm : jsstring) (parts : list jsstring) :
  List.map child_text
    (filter is_plain (List.map (mark toLowerCase searchTerm) parts))
  = filter (fun p => negb (matches toLowerCase searchTerm p)) parts.
Proof.
  induction parts as [|p parts IH]; [reflexivity|].
  cbn [List.map filter].
  change (mark toLowerCase searchTerm p)
    with (if matches toLowerCase searchTerm p then Span p else Plain p).
  destruct (matches toLowerCase searchTerm p);
    cbn [is_plain negb List.map child_text]; now rewrite IH.
Qed.

End HighlighterFacts.

(** C8: whatever the engine, [highlightMatch] returns [text] itself when
    the term is empty, and also when the pattern built from the term does
    not compile: the exception stays inside.  When the pattern compiles and
    [split] yields the parts [parts], the result is a fragment with one child
    per part, each carrying its part as it is and in the same order; the
    plain children are exactly the parts that are not the term up to case.
    Should [split] yield an undefined part, the result is [text] again. *)
Theorem highlight_match
  {RegExp : Type} (RegExp_new : jsstring -> jsstring -> Res RegExp)
  (split : jsstring -> RegExp -> list (option jsstring))
  (toLowerCase : jsstring -> jsstring) (text searchTerm : jsstring) :
  let hl := highlightMatch RegExp_new split toLowerCase in
  (searchTerm = [] -> hl text searchTerm = Text text)
  /\ (forall e, RegExp_new (pattern_of searchTerm) (str "gi") = Throw e ->
      hl text searchTerm = Text text)
  /\ (forall re parts,
      searchTerm <> [] ->
      RegExp_new (pattern_of searchTerm) (str "gi") = Ok re ->
      split text re = List.map Some parts ->
      exists children,
        hl text searchTerm = Fragment children
        /\ List.map child_text children = parts
        /\ List.map child_text (filter is_plain children)
           = filter (fun p => negb (matches toLowerCase searchTerm p)) parts)
  /\ (forall re,
      RegExp_new (pattern_of searchTerm) (str "gi") = Ok re ->
      In None (split text re) ->
      hl text searchTerm = Text text).
Proof.
  intros hl. subst hl. unfold highlightMatch, highlight_try.
  split; [|split; [|split]].
  - now intros ->.
  - intros e He. rewrite He. now destruct (negb (JS.truthy searchTerm)).
  - intros re parts Hne Hre Hsplit. rewrite Hre, Hsplit, map_res_defined.
    destruct searchTerm as [|c t]; [congruence|]. cbn [JS.truthy negb].
    eexists. split; [reflexivity|]. split; [apply marked_text|apply plain_parts].
  - intros re Hre Hin. rewrite Hre, (map_res_undefined _ _ _ Hin).
    now destruct (negb (JS.truthy searchTerm)).
Qed.

Lemma highlight_match_witness :
  LiteralEngine.highlight (str "a(b") (str "") = Text (str "a(b")
  /\ LiteralEngine.highlight (str "a(b") (str "(") = Text (str "a(b")
  /\ exists children,
       LiteralEngine.highlight (str "Pizza Dough") (str "piz")
       = Fragment children
       /\ List.map child_text children
          = [str ""; str "Piz"; str "za Dough"].
Proof.
  split; [|split].
  - apply (highlight_match LiteralEngine.RegExp_new LiteralEngine.split
             LiteralEngine.toLowerCase (str "a(b") (str "")).
    reflexivity.
  - apply (highlight_match LiteralEngine.RegExp_new LiteralEngine.split
             LiteralEngine.toLowerCase (str "a(b") (str "(")) with SyntaxError.
    reflexivity.
  - destruct (highlight_match LiteralEngine.RegExp_new LiteralEngine.split
                LiteralEngine.toLowerCase (str "Pizza Dough") (str "piz"))
      as (_ & _ & H & _).
    destruct (H (str "piz") [str ""; str "Piz"; str "za Dough"])
      as (children & Hc & Ht & _);
      [discriminate | reflexivity | reflexivity |].
    exists children. split; assumption.
Defined.

(** ** Further properties of the search bar *)

Lemma updateURL_owned_snd (r w : World) (query : jsstring) :
  timers_owned w = true ->
  snd (updateURL r query w)
  = with_urlUpdateTimeoutRef (Some (next_timer_id w))
      (with_timers
         [(next_timer_id w,
           {| due := now w + 500; callback := UrlUpdate (searchParams r) query |})]
         (N.succ (next_timer_id w)) w).
Proof. exact (updateURL_owned r w query). Qed.

(** An input change leaves exactly the timer of its own URL update. *)
Lemma input_change_arms (w : World) (value : jsstring) :
  timers_owned w = true ->
  let w' := step (InputChange value) w in
  timers w'
  = [(next_timer_id w,
      {| due := now w + 500; callback := UrlUpdate (searchParams w) value |})]
  /\ navigations w' = navigations w
  /\ now w' = now w
  /\ searchParams w' = searchParams w
  /\ timers_owned w' = true.
Proof.
  intros Hown w'.
  assert (Hown' : timers_owned w' = true) by now apply step_timers_owned.
  cut (timers w'
       = [(next_timer_id w,
           {| due := now w + 500; callback := UrlUpdate (searchParams w) value |})]
       /\ navigations w' = navigations w
       /\ now w' = now w
       /\ searchParams w' = searchParams w); [tauto|].
  clear Hown'. subst w'. cbn [step].
  unfold handleInputChange, fetchSuggestions, clearTimeout. unfold_m.
  destruct w as [u sref uref sp nw ts nid navs calls st cons].
  crunch; (rewrite updateURL_owned_snd by owned_tac); simp; repeat split.
Qed.

Lemma typing_armed (rest : list (N * jsstring)) :
  forall (w : World) (first : jsstring),
    timers_owned w = true ->
    Forall (fun c => (fst c < 500)%N) rest ->
    let wn := run (typing first rest) w in
    (exists i,
        timers wn
        = [(i, {| due := now wn + 500;
                  callback := UrlUpdate (searchParams w)
                                        (last (List.map snd rest) first) |})])
    /\ navigations wn = navigations w.
Proof.
  induction rest as [|[gap q] rest IH]; intros w first Hown Hgaps wn.
  - subst wn. change (run (typing first []) w) with (step (InputChange first) w).
    destruct (input_change_arms w first Hown) as (Ht & Hn & Hnow & _).
    rewrite Ht, Hn, Hnow. split; [eexists; reflexivity | reflexivity].
  - subst wn. inversion Hgaps as [|c l Hgap Hrest]; subst. cbn [fst] in Hgap.
    change (run (typing first ((gap, q) :: rest)) w)
      with (run (typing q rest) (elapse gap (step (InputChange first) w))).
    destruct (input_change_arms w first Hown) as (Ht & Hn & Hnow & Hsp & Ho).
    set (w1 := step (InputChange first) w) in *.
    assert (E : elapse gap w1 = with_clock (now w1 + gap) (timers w1) w1).
    { rewrite (elapse_keeps_armed gap w1 _ Ht); [now rewrite Ht|].
      cbn [snd due]. lia. }
    rewrite E. set (w2 := with_clock (now w1 + gap) (timers w1) w1).
    assert (Hw2 : timers_owned w2 = true) by exact Ho.
    destruct (IH w2 q Hw2 Hrest) as [[i Hi] Hnav].
    split.
    + exists i. rewrite Hi. cbn [List.map snd]. rewrite last_cons.
      now change (searchParams w2) with (searchParams w1); rewrite Hsp.
    + rewrite Hnav. exact Hn.
Qed.

(** Texts typed less than 500 time units apart cause no navigation while the
    typing lasts and, 500 units after the last keystroke, exactly one: to the
    root path, with [page] removed and [search] set to the last text typed
    (as a well-formed string; removed when that text is all white space). *)
Theorem typing_navigates_once
  (w : World) (first : jsstring) (rest : list (N * jsstring)) (d : N) :
  timers_owned w = true ->
  Forall (fun c => (fst c < 500)%N) rest ->
  (500 <= d)%N ->
  let final := last (List.map snd rest) first in
  navigations (run (typing first rest) w) = navigations w
  /\ exists h,
       navigations (run (typing first rest ++ [Elapse d]) w)
       = navigations w ++ [h]
       /\ pathname h = str "/"
       /\ URLSearchParams.get (str "page") (query h) = None
       /\ (JS.trim final <> [] ->
           query h
           = URLSearchParams.delete (str "page")
               (URLSearchParams.set (str "search") final (searchParams w))
           /\ URLSearchParams.get (str "search") (query h)
              = Some (JS.toWellFormed final))
       /\ (JS.trim final = [] ->
           query h
           = URLSearchParams.delete (str "page")
               (URLSearchParams.delete (str "search") (searchParams w))
           /\ URLSearchParams.get (str "search") (query h) = None).
Proof.
  intros Hown Hgaps Hd final.
  destruct (typing_armed rest w first Hown Hgaps) as [[i Hi] Hnav].
  fold final in Hi. split; [exact Hnav|].
  rewrite run_app. change (run [Elapse d] ?x) with (elapse d x).
  remember (run (typing first rest) w) as wn eqn:Ewn. clear Ewn.
  rewrite (elapse_one_timer d _ _ Hi). cbn [snd due].
  destruct (N.leb_spec (now wn + 500) (now wn + d)); [|lia].
  destruct (synced_params_facts (searchParams w) final) as (Hp & Hs & Hn).
  exists {| pathname := str "/"; query := synced_params (searchParams w) final |}.
  cbn [pathname query].
  split; [unfold fire, exec, run_callback; cbn; now rewrite Hnav|].
  split; [reflexivity|]. split; [exact Hp|]. split; [exact Hs | exact Hn].
Qed.

Lemma typing_navigates_once_witness :
  exists h,
    navigations
      (run (typing (str "p") [(120%N, str "pi"); (80%N, str "piz")]
            ++ [Elapse 500])
           (initial [(str "page", str "2")]))
    = [h]
    /\ query h = [(str "search", str "piz")].
Proof.
  destruct (typing_navigates_once (initial [(str "page", str "2")]) (str "p")
              [(120%N, str "pi"); (80%N, str "piz")] 500)
    as (_ & h & Hnav & _ & _ & Hs & _);
    [reflexivity | repeat constructor | lia |].
  destruct Hs as [Hq _]; [vm_compute; discriminate|].
  exists h. split; [exact Hnav | exact Hq].
Defined.

Lemma bind_modify {B} (f : World -> World) (k : unit -> M B) (w : World) :
  bind (modify f) k w = k tt (f w).
Proof. reflexivity. Qed.

Lemma bind_gets {A B} (f : World -> A) (k : A -> M B) (w : World) :
  bind (gets f) k w = k (f w) w.
Proof. reflexivity. Qed.

Lemma bind_cancel_owned {B} (k : unit -> M B) (w : World) :
  timers_owned w = true ->
  bind (when (ref_truthy (urlUpdateTimeoutRef w))
             (clearTimeout (urlUpdateTimeoutRef w))) k w
  = k tt (with_timers [] (next_timer_id w) w).
Proof. intros H. unfold bind. now rewrite (owned_cancel w H). Qed.

(** The world after the clear button, when the timers are the scheduler's. *)
Lemma resetSearch_owned (r w : World) :
  timers_owned w = true ->
  exec (resetSearch r) w
  = with_navigations
      (navigations w
       ++ [root_with (URLSearchParams.delete (str "page")
                        (URLSearchParams.delete (str "search")
                           (searchParams r)))])
      (with_timers [] (next_timer_id w)
         (with_ui
            (with_highlightedIndex (-1)
               (with_showSuggestions false
                  (with_suggestions [] (with_search (str "") (ui w))))) w)).
Proof.
  intros Hown. unfold resetSearch, exec.
  unfold setSearch, setSuggestions, setShowSuggestions, setHighlightedIndex,
    router_push.
  rewrite !bind_modify, bind_gets.
  rewrite bind_cancel_owned by exact Hown.
  now destruct w.
Qed.

(** The clear button empties the query and the list, closes the panel,
    resets the index and cancels the pending URL update; it navigates at
    once to the URL without [search] and [page], and nothing is navigated
    later. *)
Theorem clear_button (w : World) :
  timers_owned w = true ->
  clear_button_rendered w = true ->
  let w' := step ClearClick w in
  let params :=
    URLSearchParams.delete (str "page")
      (URLSearchParams.delete (str "search") (searchParams w)) in
  search (ui w') = str ""
  /\ suggestions (ui w') = []
  /\ showSuggestions (ui w') = false
  /\ highlightedIndex (ui w') = (-1)%Z
  /\ timers w' = []
  /\ now w' = now w
  /\ navigations w' = navigations w ++ [root_with params]
  /\ URLSearchParams.get (str "search") params = None
  /\ URLSearchParams.get (str "page") params = None
  /\ (forall d, navigations (elapse d w') = navigations w').
Proof.
  intros Hown Hbtn w' params. subst w'. cbn [step]. rewrite Hbtn.
  rewrite (resetSearch_owned w w Hown). repeat split.
  - subst params. rewrite get_delete_other by apply search_is_not_page.
    apply get_delete_same.
  - apply get_delete_same.
Qed.

Lemma clear_button_witness :
  let w := step (Elapse 100) (step (InputChange (str "piz"))
                                (initial [(str "page", str "4")])) in
  navigations (elapse 500 (step ClearClick w)) = [root_with []].
Proof.
  intros w.
  destruct (clear_button w) as (_ & _ & _ & _ & _ & _ & Hnav & _ & _ & Hlater);
    [reflexivity | reflexivity |].
  rewrite Hlater, Hnav. reflexivity.
Defined.

(** The world after accepting a suggestion. *)
Lemma handleSuggestionClick_owned (r w : World) (s : Suggestion) :
  timers_owned w = true ->
  exec (handleSuggestionClick r (Some s)) w
  = with_navigations
      (navigations w
       ++ [root_with (URLSearchParams.delete (str "page")
                        (URLSearchParams.set (str "search") (title s)
                           (searchParams r)))])
      (with_timers [] (next_timer_id w)
         (with_ui (with_showSuggestions false (with_search (title s) (ui w)))
                  w)).
Proof.
  intros Hown. unfold handleSuggestionClick, exec.
  unfold setSearch, setShowSuggestions, router_push.
  rewrite !bind_modify, bind_gets.
  rewrite bind_cancel_owned by exact Hown.
  now destruct w.
Qed.

(** Enter on a highlighted row accepts that row's suggestion: the query
    becomes its title, the panel closes, the pending URL update is cancelled
    and the navigation happens at once, to the root path with [page] removed
    and [search] set to the title as a well-formed string. *)
Theorem enter_accepts_highlighted (w : World) (s : Suggestion) :
  timers_owned w = true ->
  showSuggestions (ui w) = true ->
  (0 <= highlightedIndex (ui w))%Z ->
  nth_error (suggestions (ui w)) (Z.to_nat (highlightedIndex (ui w))) = Some s ->
  let w' := step (KeyDown (str "Enter")) w in
  w' = exec (handleSuggestionClick w (Some s)) w
  /\ search (ui w') = title s
  /\ showSuggestions (ui w') = false
  /\ highlightedIndex (ui w') = highlightedIndex (ui w)
  /\ timers w' = []
  /\ now w' = now w
  /\ exists h,
       navigations w' = navigations w ++ [h]
       /\ pathname h = str "/"
       /\ query h
          = URLSearchParams.delete (str "page")
              (URLSearchParams.set (str "search") (title s) (searchParams w))
       /\ URLSearchParams.get (str "search") (query h)
          = Some (JS.toWellFormed (title s))
       /\ URLSearchParams.get (str "page") (query h) = None.
Proof.
  intros Hown Hshow Hi Hs w'.
  assert (E : w' = exec (handleSuggestionClick w (Some s)) w).
  { subst w'. cbn [step]. unfold handleKeyDown. rewrite Hshow. cbn [negb].
    change (JS.eqb (str "Enter") (str "ArrowDown")) with false.
    change (JS.eqb (str "Enter") (str "ArrowUp")) with false.
    change (JS.eqb (str "Enter") (str "Enter")) with true. cbv iota.
    destruct (Z.geb_spec (highlightedIndex (ui w)) 0); [|lia].
    now rewrite Hs. }
  split; [exact E|]. rewrite E, (handleSuggestionClick_owned w w s Hown).
  do 5 (split; [reflexivity|]).
  exists {| pathname := str "/";
            query := URLSearchParams.delete (str "page")
                       (URLSearchParams.set (str "search") (title s)
                          (searchParams w)) |}.
  cbn [pathname query]. do 3 (split; [reflexivity|]).
  split; [|apply get_delete_same].
  rewrite get_delete_other by apply search_is_not_page.
  apply get_set_same, search_well_formed.
Qed.

Lemma enter_accepts_highlighted_witness :
  let w := step (KeyDown (str "ArrowDown"))
             (step (KeyDown (str "ArrowDown")) showing_three) in
  search (ui (step (KeyDown (str "Enter")) w)) = str "Pizza Sauce"
  /\ exists h,
       navigations (step (KeyDown (str "Enter")) w) = [h]
       /\ query h = [(str "search", str "Pizza Sauce")].
Proof.
  intros w.
  destruct (enter_accepts_highlighted w (pizza 2 "Pizza Sauce"))
    as (_ & Hs & _ & _ & _ & _ & h & Hnav & _ & Hq & _);
    [reflexivity | reflexivity | vm_compute; discriminate | reflexivity |].
  split; [exact Hs|]. exists h. split; [exact Hnav | exact Hq].
Defined.

(** Enter with no row highlighted closes the panel and goes through the
    debounce: nothing is navigated for 500 time units, then there is one
    navigation, to the root path with [page] removed and [search] set to the
    current query (as a well-formed string; removed when the query is all
    white space). *)
Theorem enter_without_row (w : World) (d : N) :
  timers_owned w = true ->
  showSuggestions (ui w) = true ->
  (highlightedIndex (ui w) < 0)%Z ->
  let w' := step (KeyDown (str "Enter")) w in
  let current := search (ui w) in
  ui w' = with_showSuggestions false (ui w)
  /\ navigations w' = navigations w
  /\ ((d < 500)%N -> navigations (elapse d w') = navigations w)
  /\ ((500 <= d)%N ->
      exists h,
        navigations (elapse d w') = navigations w ++ [h]
        /\ pathname h = str "/"
        /\ URLSearchParams.get (str "page") (query h) = None
        /\ (JS.trim current <> [] ->
            query h
            = URLSearchParams.delete (str "page")
                (URLSearchParams.set (str "search") current (searchParams w))
            /\ URLSearchParams.get (str "search") (query h)
               = Some (JS.toWellFormed current))
        /\ (JS.trim current = [] ->
            query h
            = URLSearchParams.delete (str "page")
                (URLSearchParams.delete (str "search") (searchParams w))
            /\ URLSearchParams.get (str "search") (query h) = None)).
Proof.
  intros Hown Hshow Hi w' current.
  assert (E : w' = exec (updateURL w current)
                        (with_ui (with_showSuggestions false (ui w)) w)).
  { subst w'. cbn [step]. unfold handleKeyDown. rewrite Hshow. cbn [negb].
    change (JS.eqb (str "Enter") (str "ArrowDown")) with false.
    change (JS.eqb (str "Enter") (str "ArrowUp")) with false.
    change (JS.eqb (str "Enter") (str "Enter")) with true. cbv iota.
    destruct (Z.geb_spec (highlightedIndex (ui w)) 0); [lia|].
    reflexivity. }
  rewrite E, updateURL_owned by exact Hown.
  split; [reflexivity|]. split; [reflexivity|]. split; intros Hd.
  - erewrite elapse_one_timer by reflexivity. cbn [snd due timers now
      with_urlUpdateTimeoutRef with_timers with_ui].
    destruct (N.leb_spec (now w + 500) (now w + d)); [lia|reflexivity].
  - erewrite elapse_one_timer by reflexivity. cbn [snd due timers now
      with_urlUpdateTimeoutRef with_timers with_ui].
    destruct (N.leb_spec (now w + 500) (now w + d)); [|lia].
    destruct (synced_params_facts (searchParams w) current) as (Hp & Hs & Hn).
    exists {| pathname := str "/";
              query := synced_params (searchParams w) current |}.
    cbn [pathname query].
    split; [reflexivity|]. split; [reflexivity|]. split; [exact Hp|].
    split; [exact Hs | exact Hn].
Qed.

Lemma enter_without_row_witness :
  exists h,
    navigations (elapse 500 (step (KeyDown (str "Enter")) showing_three)) = [h]
    /\ query h = [(str "search", str "piz")].
Proof.
  destruct (enter_without_row showing_three 500) as (_ & _ & _ & H);
    [reflexivity | reflexivity | vm_compute; reflexivity |].
  destruct H as (h & Hnav & _ & _ & Hs & _); [lia|].
  destruct Hs as [Hq _]; [vm_compute; discriminate|].
  exists h. split; [exact Hnav | exact Hq].
Defined.

(** Enter on an index at or beyond the end of the list reads [undefined]
    from the array; [handleSuggestionClick] throws a [TypeError] on it before
    it has changed anything. *)
Theorem enter_beyond_list_throws (w : World) :
  showSuggestions (ui w) = true ->
  (JS.length_of (suggestions (ui w)) <= highlightedIndex (ui w))%Z ->
  handleKeyDown w (str "Enter") w = (Throw TypeError, w).
Proof.
  intros Hshow Hi. unfold handleKeyDown. rewrite Hshow. cbn [negb].
  change (JS.eqb (str "Enter") (str "ArrowDown")) with false.
  change (JS.eqb (str "Enter") (str "ArrowUp")) with false.
  change (JS.eqb (str "Enter") (str "Enter")) with true. cbv iota.
  pose proof (length_of_nonneg (suggestions (ui w))) as Hn.
  destruct (Z.geb_spec (highlightedIndex (ui w)) 0); [|lia].
  replace (nth_error (suggestions (ui w)) (Z.to_nat (highlightedIndex (ui w))))
    with (@None Suggestion); [reflexivity|].
  symmetry. apply nth_error_None. unfold JS.length_of in Hi. lia.
Qed.

Lemma enter_beyond_list_throws_witness :
  let w := run [InputChange (str "pizz");
                KeyDown (str "ArrowDown"); KeyDown (str "ArrowDown");
                KeyDown (str "ArrowDown");
                FetchSettled (Rejected (ServiceError (str "offline")))]
               showing_three in
  handleKeyDown w (str "Enter") w = (Throw TypeError, w).
Proof.
  intros w. apply (enter_beyond_list_throws w);
    [reflexivity | vm_compute; discriminate].
Defined.

(** Escape, with the panel open, closes it and touches nothing else: the
    index stays on its row, and a pending URL update is not cancelled, so
    the navigations that follow are those that would have followed. *)
Theorem escape_only_closes (w : World) (d : N) :
  showSuggestions (ui w) = true ->
  step (KeyDown (str "Escape")) w
  = with_ui (with_showSuggestions false (ui w)) w
  /\ highlightedIndex (ui (step (KeyDown (str "Escape")) w))
     = highlightedIndex (ui w)
  /\ navigations (elapse d (step (KeyDown (str "Escape")) w))
     = navigations (elapse d w).
Proof.
  intros Hshow.
  assert (E : step (KeyDown (str "Escape")) w
              = with_ui (with_showSuggestions false (ui w)) w).
  { cbn [step]. unfold handleKeyDown. rewrite Hshow. reflexivity. }
  rewrite E. split; [reflexivity|]. split; [reflexivity|].
  unfold elapse; cbn [now timers with_ui].
  assert (H : forall l w0 u,
             navigations (fold_left fire l (with_ui u w0))
             = navigations (fold_left fire l w0)).
  { induction l as [|x l IH]; intros w0 u; [reflexivity|].
    cbn [fold_left]. destruct x as [i [t [sp q]]].
    exact (IH (fire w0 (i, {| due := t; callback := UrlUpdate sp q |})) u). }
  exact (H _ (with_clock (now w + d) _ w) (with_showSuggestions false (ui w))).
Qed.

Lemma escape_only_closes_witness :
  let w := step (KeyDown (str "ArrowDown")) showing_three in
  highlightedIndex (ui (step (KeyDown (str "Escape")) w)) = 0%Z
  /\ navigations (elapse 500 (step (KeyDown (str "Escape")) w))
     = [root_with [(str "search", str "piz")]].
Proof.
  intros w. destruct (escape_only_closes w 500) as (_ & Hi & Hn);
    [reflexivity|].
  split; [exact Hi | rewrite Hn; reflexivity].
Defined.

(** A key other than ArrowDown, ArrowUp, Enter and Escape changes nothing,
    whether the panel is open or not. *)
Theorem other_keys_noop (w : World) (key : jsstring) :
  key <> str "ArrowDown" -> key <> str "ArrowUp" ->
  key <> str "Enter" -> key <> str "Escape" ->
  handleKeyDown w key w = (Ok tt, w) /\ step (KeyDown key) w = w.
Proof.
  intros Hd Hu He Hx.
  assert (H : handleKeyDown w key w = (Ok tt, w)).
  { unfold handleKeyDown.
    apply eqb_neq in Hd, Hu, He, Hx. rewrite Hd, Hu, He, Hx.
    now destruct (negb (showSuggestions (ui w))). }
  split; [exact H|]. cbn [step]. unfold exec. now rewrite H.
Qed.

Lemma other_keys_noop_witness :
  step (KeyDown (str "Tab")) showing_three = showing_three.
Proof.
  apply (other_keys_noop showing_three (str "Tab")); discriminate.
Defined.

(** ** Timers over the component's life *)

Lemma fire_fold_frame (l : list (N * Timer)) (w : World) :
  timers (fold_left fire l w) = timers w
  /\ searchTimeoutRef (fold_left fire l w) = searchTimeoutRef w
  /\ service_calls (fold_left fire l w) = service_calls w.
Proof.
  revert w; induction l as [|x l IH]; intros w; [now repeat split|].
  cbn [fold_left]. destruct (IH (fire w x)) as (Ht & Hs & Hc).
  rewrite Ht, Hs, Hc. now destruct x as [i [t [sp q]]].
Qed.

Ltac length_tac :=
  try (rewrite updateURL_owned_snd by owned_tac); simp;
  try lia;
  try (eapply Nat.le_trans; [apply filter_length_le | assumption]).

Lemma step_single_timer (ev : Event) (w : World) :
  timers_owned w = true ->
  (List.length (timers w) <= 1)%nat ->
  (List.length (timers (step ev w)) <= 1)%nat.
Proof.
  intros Hown Hlen. destruct ev; cbn [step].
  - destruct (input_change_arms w value Hown) as (Ht & _).
    cbn [step] in Ht. rewrite Ht. cbn. lia.
  - unfold handleKeyDown, handleSuggestionClick, clearTimeout. unfold_m.
    destruct w as [u sref uref sp nw ts nid navs calls st cons].
    crunch; length_tac.
  - unfold handleSuggestionClick, clearTimeout. unfold_m.
    destruct w as [u sref uref sp nw ts nid navs calls st cons].
    crunch; length_tac.
  - destruct (nth_error (rendered_rows w) index); exact Hlen.
  - unfold resetSearch, clearTimeout. unfold_m.
    destruct w as [u sref uref sp nw ts nid navs calls st cons].
    crunch; length_tac.
  - unfold handleClickOutside. unfold_m.
    destruct (panel_rendered w && negb in_panel && negb in_input); exact Hlen.
  - unfold fetchSuggestions_resume. unfold_m.
    destruct (settled w <? List.length (service_calls w))%nat; [|exact Hlen].
    destruct o; exact Hlen.
  - unfold elapse.
    destruct (fire_fold_frame
                (sort_due (filter (is_due (now w + d)) (timers w)))
                (with_clock (now w + d)
                   (filter (fun x => negb (is_due (now w + d) x)) (timers w)) w))
      as (Ht & _).
    rewrite Ht. cbn [timers with_clock].
    eapply Nat.le_trans; [apply filter_length_le | exact Hlen].
  - exact Hlen.
Qed.

(** However the component is used, at most one timer is pending at any
    moment, and it is the one [urlUpdateTimeoutRef] holds. *)
Theorem at_most_one_timer (evs : list Event) (params : URLSearchParams.t) :
  let w := run evs (initial params) in
  (List.length (timers w) <= 1)%nat
  /\ (forall x, In x (timers w) -> urlUpdateTimeoutRef w = Some (fst x)).
Proof.
  intros w. split.
  - subst w.
    assert (H : forall w0, timers_owned w0 = true ->
                           (List.length (timers w0) <= 1)%nat ->
                           (List.length (timers (run evs w0)) <= 1)%nat).
    { induction evs as [|ev evs IH]; intros w0 Ho Hl; [exact Hl|].
      apply (IH (step ev w0));
        [now apply step_timers_owned | now apply step_single_timer]. }
    apply H; [reflexivity | cbn; lia].
  - pose proof (reachable_timers_owned evs params) as Ho. fold w in Ho.
    unfold timers_owned in Ho. apply andb_true_iff in Ho as [_ Hall].
    rewrite forallb_forall in Hall. intros x Hx. specialize (Hall x Hx).
    destruct (urlUpdateTimeoutRef w) as [i|]; [|discriminate].
    apply andb_true_iff in Hall as [Hi _]. apply N.eqb_eq in Hi. now subst.
Qed.

Lemma at_most_one_timer_witness :
  let w := run [InputChange (str "p"); Elapse 100; InputChange (str "pi")]
               (initial []) in
  urlUpdateTimeoutRef w = Some 2%N.
Proof.
  intros w.
  destruct (at_most_one_timer
              [InputChange (str "p"); Elapse 100; InputChange (str "pi")] [])
    as [_ Hall].
  apply (Hall (2%N, {| due := 600; callback := UrlUpdate [] (str "pi") |})).
  vm_compute. left. reflexivity.
Defined.

(** The world after the unmount cleanup. *)
Lemma cleanup_owned (w : World) :
  timers_owned w = true ->
  exec cleanup w = with_timers [] (next_timer_id w) w.
Proof.
  intros Hown. unfold cleanup, exec. rewrite bind_gets.
  assert (H1 : exists w1,
             when (ref_truthy (searchTimeoutRef w))
                  (clearTimeout (searchTimeoutRef w)) w = (Ok tt, w1)
             /\ timers_owned w1 = true
             /\ with_timers [] (next_timer_id w1) w1
                = with_timers [] (next_timer_id w) w).
  { destruct w as [u sref uref sp nw ts nid navs calls st cons].
    destruct sref as [i|]; cbn [searchTimeoutRef ref_truthy when];
      [destruct (negb (i =? 0)%N)|];
      eexists; (split; [reflexivity|]); split; try exact Hown;
        try reflexivity.
    owned_tac. }
  destruct H1 as (w1 & E1 & Ho1 & Eq).
  unfold bind at 1. rewrite E1. rewrite bind_gets.
  unfold bind. rewrite (owned_cancel w1 Ho1). cbn [snd]. exact Eq.
Qed.

(** Unmounting cancels the pending URL update: whatever happened before,
    after the cleanup no timer is left and no navigation follows, however
    long one waits; the React state is not touched. *)
Theorem unmount_cancels
  (evs : list Event) (params : URLSearchParams.t) (d : N) :
  let w := run evs (initial params) in
  timers (exec cleanup w) = []
  /\ navigations (elapse d (exec cleanup w)) = navigations w
  /\ ui (exec cleanup w) = ui w.
Proof.
  intros w. rewrite (cleanup_owned w (reachable_timers_owned evs params)).
  repeat split.
Qed.

Lemma step_searchTimeoutRef (ev : Event) (w : World) :
  searchTimeoutRef (step ev w) = searchTimeoutRef w.
Proof.
  destruct ev; cbn [step].
  1-3, 5-7: unfold_handlers; unfold panel_rendered;
    destruct w as [u sref uref sp nw ts nid navs calls st cons];
    try destruct o; crunch; reflexivity.
  - destruct (nth_error (rendered_rows w) index); reflexivity.
  - unfold elapse. now rewrite (proj1 (proj2 (fire_fold_frame _ _))).
  - reflexivity.
Qed.

(** The timeout ref meant for the fetch is never given a timer: it is
    [null] in every state the component reaches. *)
Theorem search_timeout_never_set
  (evs : list Event) (params : URLSearchParams.t) :
  searchTimeoutRef (run evs (initial params)) = None.
Proof.
  assert (H : forall w, searchTimeoutRef (run evs w) = searchTimeoutRef w).
  { induction evs as [|ev evs IH]; intros w; [reflexivity|].
    change (run (ev :: evs) w) with (run evs (step ev w)).
    now rewrite IH, step_searchTimeoutRef. }
  now rewrite H.
Qed.

Lemma input_change_service_calls (w : World) (value : jsstring) :
  ((3 <= JS.length value)%Z /\ JS.trim value <> [] ->
   service_calls (step (InputChange value) w) = service_calls w ++ [value])
  /\ ((JS.length value < 3)%Z \/ JS.trim value = [] ->
      service_calls (step (InputChange value) w) = service_calls w).
Proof.
  cbn [step]. unfold_handlers.
  destruct w as [u sref uref sp nw ts nid navs calls st cons].
  crunch; bools; split; intros; try reflexivity;
    exfalso; intuition (try lia; congruence).
Qed.

(** The fetch is not debounced: every text of at least three code units
    that is not all white space is sent to the service the moment it is
    typed, so a run of such texts gives one call each, in order; a shorter
    or blank text gives none. *)
Theorem every_keystroke_fetches (w : World) (values : list jsstring) :
  (Forall (fun v => (3 <= JS.length v)%Z /\ JS.trim v <> []) values ->
   service_calls (run (List.map InputChange values) w)
   = service_calls w ++ values)
  /\ (Forall (fun v => (JS.length v < 3)%Z \/ JS.trim v = []) values ->
      service_calls (run (List.map InputChange values) w) = service_calls w).
Proof.
  split; revert w; induction values as [|v values IH]; intros w Hall;
    cbn [List.map]; try (cbn; now rewrite ?app_nil_r);
    inversion Hall as [|x l Hv Hrest]; subst;
    change (run (InputChange v :: List.map InputChange values) w)
      with (run (List.map InputChange values) (step (InputChange v) w));
    rewrite (IH _ Hrest).
  - rewrite (proj1 (input_change_service_calls w v) Hv).
    now rewrite <- app_assoc.
  - exact (proj2 (input_change_service_calls w v) Hv).
Qed.

Lemma every_keystroke_fetches_witness :
  service_calls (run (List.map InputChange [str "piz"; str "pizz"; str "pizza"])
                     (initial []))
  = [str "piz"; str "pizz"; str "pizza"].
Proof.
  apply (every_keystroke_fetches (initial [])
           [str "piz"; str "pizz"; str "pizza"]).
  repeat constructor; vm_compute; discriminate.
Defined.

(** The loading flag is switched off by whichever response arrives first,
    also while later requests are still unanswered. *)
Theorem loading_off_while_in_flight (w : World) (o : Outcome) :
  (settled w + 2 <= List.length (service_calls w))%nat ->
  let w' := step (FetchSettled o) w in
  loading (ui w') = false
  /\ (settled w' < List.length (service_calls w'))%nat.
Proof.
  intros H. cbn [step].
  destruct (Nat.ltb_spec (settled w) (List.length (service_calls w))); [|lia].
  cbv zeta. unfold_handlers. destruct o; cbn; split; try reflexivity; lia.
Qed.

Lemma loading_off_while_in_flight_witness :
  let w := run [InputChange (str "piz"); InputChange (str "pizz")] (initial []) in
  loading (ui w) = true
  /\ loading (ui (step (FetchSettled (Resolved three_pizzas)) w)) = false.
Proof.
  intros w. split; [reflexivity|].
  apply (loading_off_while_in_flight w (Resolved three_pizzas)).
  vm_compute. repeat constructor.
Defined.

(** ** Navigations *)

Lemma fire_fold_navigations (l : list (N * Timer)) (w : World) :
  Forall root_without_page (navigations w) ->
  Forall root_without_page (navigations (fold_left fire l w)).
Proof.
  revert w; induction l as [|x l IH]; intros w Hw; [exact Hw|].
  cbn [fold_left]. apply IH. destruct x as [i [t [sp q]]].
  unfold fire, exec, run_callback, router_push, modify; cbn.
  apply Forall_app; split; [exact Hw|].
  repeat constructor. apply get_delete_same.
Qed.

Ltac nav_tac :=
  try assumption;
  try (apply Forall_app; split; [assumption|];
       repeat constructor; apply get_delete_same).

Lemma step_navigations (ev : Event) (w : World) :
  Forall root_without_page (navigations w) ->
  Forall root_without_page (navigations (step ev w)).
Proof.
  intros Hw. destruct ev; cbn [step].
  1-3, 5-7: unfold_handlers; unfold panel_rendered;
    destruct w as [u sref uref sp nw ts nid navs calls st cons];
    try destruct o; crunch; nav_tac.
  - destruct (nth_error (rendered_rows w) index); exact Hw.
  - unfold elapse. now apply fire_fold_navigations.
  - exact Hw.
Qed.

(** Every navigation the search bar ever performs goes to the root path
    and carries no [page] parameter. *)
Theorem navigations_drop_page (evs : list Event) (params : URLSearchParams.t) :
  Forall root_without_page (navigations (run evs (initial params))).
Proof.
  assert (H : forall w, Forall root_without_page (navigations w) ->
                        Forall root_without_page (navigations (run evs w))).
  { induction evs as [|ev evs IH]; intros w Hw; [exact Hw|].
    apply (IH (step ev w)). now apply step_navigations. }
  apply H. constructor.
Qed.

(** ** Pointer events *)

Lemma fire_with_ui (u : State) (w : World) (x : N * Timer) :
  fire (with_ui u w) x = with_ui u (fire w x).
Proof. now destruct x as [i [t [sp q]]]. Qed.

Lemma elapse_with_ui (d : N) (u : State) (w : World) :
  elapse d (with_ui u w) = with_ui u (elapse d w).
Proof.
  unfold elapse. cbn [now timers with_ui].
  generalize (sort_due (filter (is_due (now w + d)) (timers w))).
  generalize (filter (fun x => negb (is_due (now w + d) x)) (timers w)).
  intros rest l.
  change (with_clock (now w + d) rest (with_ui u w))
    with (with_ui u (with_clock (now w + d) rest w)).
  generalize (with_clock (now w + d) rest w). intros w0.
  revert w0; induction l as [|x l IH]; intros w0; [reflexivity|].
  cbn [fold_left]. now rewrite fire_with_ui, IH.
Qed.

(** A pointer press outside the input and the panel, while the panel is on
    screen, closes the panel and nothing more: query, list and index stay,
    and a pending URL update still navigates when its time comes.  A press
    inside either of them, or with no panel on screen, changes nothing. *)
Theorem click_outside (w : World) (in_panel in_input : bool) (d : N) :
  (panel_rendered w = true ->
   step (MouseDown false false) w
   = with_ui (with_showSuggestions false (ui w)) w
   /\ navigations (elapse d (step (MouseDown false false) w))
      = navigations (elapse d w))
  /\ (in_panel = true \/ in_input = true \/ panel_rendered w = false ->
      step (MouseDown in_panel in_input) w = w).
Proof.
  split.
  - intros Hp.
    assert (E : step (MouseDown false false) w
                = with_ui (with_showSuggestions false (ui w)) w).
    { cbn [step]. unfold handleClickOutside. now rewrite Hp. }
    split; [exact E|]. now rewrite E, elapse_with_ui.
  - intros H. cbn [step]. unfold handleClickOutside.
    destruct in_panel, in_input, (panel_rendered w); cbn;
      try reflexivity; intuition discriminate.
Qed.

Lemma click_outside_witness :
  showSuggestions (ui (step (MouseDown false false) showing_three)) = false
  /\ step (MouseDown true false) showing_three = showing_three.
Proof.
  destruct (click_outside showing_three true false 0) as [Hout Hin].
  split.
  - destruct Hout as [E _]; [reflexivity|]. now rewrite E.
  - apply Hin. now left.
Defined.

(** A response that arrives after the query has been cut below three code
    units still sets [showSuggestions]: the flag is on with no panel on the
    screen, so a press outside does not clear it. *)
Theorem late_response_on_short_query (w : World) (results : list Suggestion) :
  (settled w < List.length (service_calls w))%nat ->
  (JS.length (search (ui w)) < 3)%Z ->
  let w' := step (FetchSettled (Resolved results)) w in
  showSuggestions (ui w') = true
  /\ suggestions (ui w') = results
  /\ panel_rendered w' = false
  /\ rendered_rows w' = []
  /\ step (MouseDown false false) w' = w'.
Proof.
  intros Hin Hlen. cbn [step].
  destruct (Nat.ltb_spec (settled w) (List.length (service_calls w))); [|lia].
  cbv zeta.
  assert (Hp : panel_rendered
                 (exec (fetchSuggestions_resume (Resolved results))
                    (with_service (service_calls w) (S (settled w)) w))
               = false).
  { unfold panel_rendered. unfold_handlers. cbn.
    destruct (Z.geb_spec (JS.length (search (ui w))) 3); [lia|reflexivity]. }
  repeat split; try exact Hp.
  - unfold rendered_rows. now rewrite Hp.
  - unfold handleClickOutside. now rewrite Hp.
Qed.

Lemma late_response_on_short_query_witness :
  let w := run [InputChange (str "piz"); InputChange (str "p")] (initial []) in
  showSuggestions (ui w) = false
  /\ showSuggestions (ui (step (FetchSettled (Resolved three_pizzas)) w)) = true.
Proof.
  intros w. split; [reflexivity|].
  apply (late_response_on_short_query w three_pizzas);
    [vm_compute; repeat constructor | vm_compute; reflexivity].
Defined.

Lemma rendered_rows_nth (w : World) (i : nat) (s : Suggestion) :
  nth_error (rendered_rows w) i = Some s ->
  showSuggestions (ui w) = true /\ nth_error (suggestions (ui w)) i = Some s.
Proof.
  unfold rendered_rows, panel_rendered.
  destruct (showSuggestions (ui w)); cbn [andb].
  - destruct ((JS.length (search (ui w)) >=? 3)%Z && negb (loading (ui w)));
      [now split | now destruct i].
  - now destruct i.
Qed.

(** Moving the pointer onto a row highlights it, and Enter then accepts
    that very row: the outcome is that of a click on the row, with the index
    left on it. *)
Theorem hover_then_enter (w : World) (i : nat) (s : Suggestion) :
  nth_error (rendered_rows w) i = Some s ->
  let w1 := step (RowMouseEnter i) w in
  highlightedIndex (ui w1) = Z.of_nat i
  /\ step (KeyDown (str "Enter")) w1
     = with_ui (with_highlightedIndex (Z.of_nat i) (ui (step (RowClick i) w)))
               (step (RowClick i) w).
Proof.
  intros Hrow w1. destruct (rendered_rows_nth w i s Hrow) as [Hshow Hs].
  subst w1. cbn [step]. rewrite Hrow.
  split; [reflexivity|].
  unfold handleKeyDown.
  change (showSuggestions (ui (exec (setHighlightedIndex (Z.of_nat i)) w)))
    with (showSuggestions (ui w)).
  rewrite Hshow. cbn [negb].
  change (JS.eqb (str "Enter") (str "ArrowDown")) with false.
  change (JS.eqb (str "Enter") (str "ArrowUp")) with false.
  change (JS.eqb (str "Enter") (str "Enter")) with true. cbv iota.
  change (highlightedIndex (ui (exec (setHighlightedIndex (Z.of_nat i)) w)))
    with (Z.of_nat i).
  change (suggestions (ui (exec (setHighlightedIndex (Z.of_nat i)) w)))
    with (suggestions (ui w)).
  destruct (Z.geb_spec (Z.of_nat i) 0); [|lia].
  rewrite Nat2Z.id, Hs.
  unfold handleSuggestionClick, clearTimeout. unfold_m.
  destruct w as [u sref uref sp nw ts nid navs calls st cons].
  crunch; reflexivity.
Qed.

Lemma hover_then_enter_witness :
  search (ui (step (KeyDown (str "Enter"))
                (step (RowMouseEnter 2) showing_three)))
  = str "Pizza Bianca".
Proof.
  destruct (hover_then_enter showing_three 2 (pizza 3 "Pizza Bianca"))
    as [_ E]; [reflexivity|].
  now rewrite E.
Defined.

(** ** Highlighted spans *)

Lemma span_parts (toLowerCase : jsstring -> jsstring)
  (searchTerm : jsstring) (parts : list jsstring) :
  List.map child_text
    (filter (fun c => negb (is_plain c))
            (List.map (mark toLowerCase searchTerm) parts))
  = filter (matches toLowerCase searchTerm) parts.
Proof.
  induction parts as [|p parts IH]; [reflexivity|].
  cbn [List.map filter].
  change (mark toLowerCase searchTerm p)
    with (if matches toLowerCase searchTerm p then Span p else Plain p).
  destruct (matches toLowerCase searchTerm p);
    cbn [is_plain negb List.map child_text]; now rewrite IH.
Qed.

(** When the pattern compiles and [split] yields defined parts, the
    fragment has one child per part, and the highlighted spans are exactly
    the parts equal to the term up to case, in their order: nothing else is
    highlighted and no such part is left plain. *)
Theorem highlight_spans
  {RegExp : Type} (RegExp_new : jsstring -> jsstring -> Res RegExp)
  (split : jsstring -> RegExp -> list (option jsstring))
  (toLowerCase : jsstring -> jsstring)
  (text searchTerm : jsstring) (re : RegExp) (parts : list jsstring) :
  searchTerm <> [] ->
  RegExp_new (pattern_of searchTerm) (str "gi") = Ok re ->
  split text re = List.map Some parts ->
  exists children,
    highlightMatch RegExp_new split toLowerCase text searchTerm
    = Fragment children
    /\ List.length children = List.length parts
    /\ List.map child_text (filter (fun c => negb (is_plain c)) children)
       = filter (matches toLowerCase searchTerm) parts.
Proof.
  intros Hne Hre Hsplit.
  exists (List.map (mark toLowerCase searchTerm) parts). split; [|split].
  - unfold highlightMatch, highlight_try.
    rewrite Hre, Hsplit, map_res_defined.
    now destruct searchTerm as [|c t]; [congruence|].
  - apply length_map.
  - apply span_parts.
Qed.

Lemma highlight_spans_witness :
  exists children,
    LiteralEngine.highlight (str "Pizza pizzaiola") (str "PIZZA")
    = Fragment children
    /\ List.map child_text (filter (fun c => negb (is_plain c)) children)
       = [str "Pizza"; str "pizza"].
Proof.
  destruct (highlight_spans LiteralEngine.RegExp_new LiteralEngine.split
              LiteralEngine.toLowerCase (str "Pizza pizzaiola") (str "PIZZA")
              (str "pizza") [str ""; str "Pizza"; str " "; str "pizza"; str "iola"])
    as (children & Hc & _ & Hs);
    [discriminate | reflexivity | reflexivity |].
  exists children. split; [exact Hc | exact Hs].
Defined.

(** ** The theme toggle *)

(** A theme chosen with the toggle is the theme after a reload, whatever
    the system prefers: the mount effect finds the stored choice and sets the
    state and the root element's [dark] class to it. *)
Theorem theme_choice_survives_reload
  (e : ThemeToggle.Env) (system_dark html : bool) :
  let chosen := ThemeToggle.toggleTheme e in
  let reloaded :=
    ThemeToggle.load
      (ThemeToggle.mount (ThemeToggle.theme chosen) system_dark html) in
  ThemeToggle.isDarkMode reloaded = ThemeToggle.isDarkMode chosen
  /\ ThemeToggle.html_dark reloaded = ThemeToggle.isDarkMode chosen
  /\ ThemeToggle.theme reloaded = ThemeToggle.theme chosen.
Proof.
  destruct e as [dark saved sys cls].
  destruct dark, system_dark; repeat split.
Qed.

(** What the mount effect makes of the stored value: ["dark"] gives the
    dark theme; any other non-empty value, ["light"] or not, gives the light
    theme even when the system prefers dark; no value or the empty string
    gives what the system prefers.  The root element's class follows the
    state, and the store is not written. *)
Theorem theme_on_mount (saved : option jsstring) (system_dark html : bool) :
  let e := ThemeToggle.load (ThemeToggle.mount saved system_dark html) in
  (saved = Some (str "dark") -> ThemeToggle.isDarkMode e = true)
  /\ (forall s, saved = Some s -> s <> [] -> s <> str "dark" ->
      ThemeToggle.isDarkMode e = false)
  /\ (saved = None \/ saved = Some [] ->
      ThemeToggle.isDarkMode e = system_dark)
  /\ ThemeToggle.html_dark e = ThemeToggle.isDarkMode e
  /\ ThemeToggle.theme e = saved.
Proof.
  cbn. repeat split.
  - now intros ->.
  - intros s -> Hne Hnd. cbn. apply eqb_neq in Hnd. rewrite Hnd.
    destruct s; [congruence|reflexivity].
  - intros [-> | ->]; reflexivity.
Qed.

Lemma theme_on_mount_witness :
  ThemeToggle.isDarkMode
    (ThemeToggle.load (ThemeToggle.mount (Some (str "light")) true false))
  = false.
Proof.
  apply (theme_on_mount (Some (str "light")) true false) with (str "light");
    [reflexivity | discriminate | discriminate].
Defined.

(** After any number of toggles, at least one, the state has flipped once
    per toggle, the root element's [dark] class agrees with it, and the store
    holds ["dark"] or ["light"] accordingly. *)
Theorem theme_toggles (e : ThemeToggle.Env) (n : nat) :
  (1 <= n)%nat ->
  let e' := Nat.iter n ThemeToggle.toggleTheme e in
  ThemeToggle.isDarkMode e' = xorb (Nat.odd n) (ThemeToggle.isDarkMode e)
  /\ ThemeToggle.html_dark e' = ThemeToggle.isDarkMode e'
  /\ ThemeToggle.theme e'
     = Some (if ThemeToggle.isDarkMode e' then str "dark" else str "light").
Proof.
  intros Hn.
  assert (Hflip : forall k,
             ThemeToggle.isDarkMode (Nat.iter k ThemeToggle.toggleTheme e)
             = xorb (Nat.odd k) (ThemeToggle.isDarkMode e)).
  { induction k as [|k IH]; [reflexivity|].
    cbn [Nat.iter nat_rect]. unfold ThemeToggle.toggleTheme at 1.
    cbn [ThemeToggle.isDarkMode]. change (nat_rect _ _ _ k) with
      (Nat.iter k ThemeToggle.toggleTheme e).
    rewrite IH, Nat.odd_succ, <- Nat.negb_odd.
    now destruct (Nat.odd k), (ThemeToggle.isDarkMode e). }
  destruct n as [|k]; [lia|].
  cbv zeta. split; [apply Hflip|].
  cbn [Nat.iter nat_rect]. split; reflexivity.
Qed.

Lemma theme_toggles_witness :
  ThemeToggle.theme
    (Nat.iter 3 ThemeToggle.toggleTheme (ThemeToggle.mount None false false))
  = Some (str "dark").
Proof.
  destruct (theme_toggles (ThemeToggle.mount None false false) 3)
    as (_ & _ & H); [lia|].
  exact H.
Defined.

(** ** The shopping-list button *)

Lemma to_items_length (ingredients : list (jsstring * ShoppingList.Amount))
  (l : list ShoppingList.Item) :
  ShoppingList.to_items ingredients = ShoppingList.Returns l ->
  List.length l = List.length ingredients
  /\ List.map ShoppingList.ingredient l = List.map fst ingredients.
Proof.
  revert l; induction ingredients as [|[name a] rest IH]; intros l H.
  - injection H as <-. now split.
  - cbn in H. destruct a as [s|e]; [|discriminate].
    destruct (ShoppingList.to_items rest) as [l'|e]; [|discriminate].
    injection H as <-. destruct (IH l' eq_refl) as [Hl Hm].
    cbn. now rewrite Hl, Hm.
Qed.

(** When every amount converts, the answer has a success status and its
    body parses, the run sends one request with one item per ingredient, in
    order, and ends with the button enabled and the success notification
    counting the ingredients, to be cleared 3000 time units later; nothing
    is logged. *)
Theorem add_all_succeeds
  (ingredients : list (jsstring * ShoppingList.Amount))
  (l : list ShoppingList.Item) (today : jsstring)
  (response : ShoppingList.Response) (data : ShoppingList.Try jsstring)
  (b : ShoppingList.Button) :
  ShoppingList.to_items ingredients = ShoppingList.Returns l ->
  ShoppingList.ok response = true ->
  ShoppingList.json response = ShoppingList.Returns data ->
  let n := List.length ingredients in
  let b1 := fst (ShoppingList.start ingredients today b) in
  let b2 := ShoppingList.finish n (ShoppingList.Returns response) b1 in
  snd (ShoppingList.start ingredients today b) = Some n
  /\ ShoppingList.isLoading b1 = true
  /\ ShoppingList.requests b1
     = ShoppingList.requests b
       ++ [{| ShoppingList.items := l;
              ShoppingList.list_name := JS.concat (str "Shopping List ") today |}]
  /\ List.map ShoppingList.ingredient l = List.map fst ingredients
  /\ ShoppingList.isLoading b2 = false
  /\ ShoppingList.notification b2
     = Some {| ShoppingList.message := ShoppingList.added_message n;
               ShoppingList.type := str "success" |}
  /\ ShoppingList.pending b2
     = ShoppingList.pending b ++ [(ShoppingList.clock b + 3000)%N]
  /\ ShoppingList.logged b2 = ShoppingList.logged b.
Proof.
  intros Hitems Hok Hjson n b1 b2.
  destruct (to_items_length ingredients l Hitems) as [Hlen Hmap].
  subst b2 b1 n. unfold ShoppingList.start, ShoppingList.finish,
    ShoppingList.inner_try. rewrite Hitems, Hjson. cbn [fst snd].
  replace (ShoppingList.ok _) with true by (symmetry; exact Hok).
  cbn. rewrite Hlen. repeat split. exact Hmap.
Qed.

Lemma add_all_succeeds_witness :
  ShoppingList.notification
    (ShoppingList.finish 2
       (ShoppingList.Returns
          {| ShoppingList.status := 201;
             ShoppingList.json :=
               ShoppingList.Returns (ShoppingList.Returns (str "")) |})
       (fst (ShoppingList.start two_ingredients (str "1/2/2025") idle_button)))
  = Some {| ShoppingList.message := str "2 ingredients added to shopping list";
            ShoppingList.type := str "success" |}.
Proof.
  apply (add_all_succeeds two_ingredients
           [{| ShoppingList.ingredient := str "flour";
               ShoppingList.amount := str "500 g" |};
            {| ShoppingList.ingredient := str "yeast";
               ShoppingList.amount := str "7 g" |}]
           (str "1/2/2025")
           {| ShoppingList.status := 201;
              ShoppingList.json :=
                ShoppingList.Returns (ShoppingList.Returns (str "")) |}
           (ShoppingList.Returns (str "")) idle_button);
    reflexivity.
Defined.

(** When the answer has a failure status, or its body does not parse, the
    notification is an error chosen by the status alone: the endpoint
    message for 404, the sign-in message for 401, "Unexpected server
    response" for everything else.  The error text the server sent is never
    shown, and a success status with an unreadable body is reported as an
    error too. *)
Theorem failure_reported_by_status
  (n : nat) (response : ShoppingList.Response) (b : ShoppingList.Button) :
  ShoppingList.ok response = false
  \/ (exists e, ShoppingList.json response = ShoppingList.Throws e) ->
  let b' := ShoppingList.finish n (ShoppingList.Returns response) b in
  let shown :=
    if (ShoppingList.status response =? 404)%Z then
      str "Shopping list endpoint not found"
    else if (ShoppingList.status response =? 401)%Z then
      str "Please sign in to add items to shopping list"
    else str "Unexpected server response" in
  ShoppingList.notification b'
  = Some {| ShoppingList.message := shown; ShoppingList.type := str "error" |}
  /\ ShoppingList.isLoading b' = false
  /\ ShoppingList.logged b'
     = ShoppingList.logged b ++ [ShoppingList.new_Error shown].
Proof.
  intros H b' shown.
  assert (E : b' = ShoppingList.fail (ShoppingList.by_status response) b).
  { subst b'. unfold ShoppingList.finish, ShoppingList.inner_try.
    destruct H as [Hok | [e He]].
    - rewrite Hok. cbn [negb].
      destruct (ShoppingList.json response) as [[msg|e]|e]; reflexivity.
    - now rewrite He. }
  rewrite E. subst shown. unfold ShoppingList.by_status.
  destruct (ShoppingList.status response =? 404)%Z;
    [|destruct (ShoppingList.status response =? 401)%Z]; repeat split.
Qed.

Lemma failure_reported_by_status_witness :
  ShoppingList.notification
    (ShoppingList.finish 2
       (ShoppingList.Returns
          {| ShoppingList.status := 500;
             ShoppingList.json :=
               ShoppingList.Returns
                 (ShoppingList.Returns (str "Database unavailable")) |})
       idle_button)
  = Some {| ShoppingList.message := str "Unexpected server response";
            ShoppingList.type := str "error" |}.
Proof.
  apply (failure_reported_by_status 2
           {| ShoppingList.status := 500;
              ShoppingList.json :=
                ShoppingList.Returns
                  (ShoppingList.Returns (str "Database unavailable")) |}
           idle_button).
  left. reflexivity.
Defined.

(** However a run ends (an amount that does not convert, a rejected
    request, any answer), the button is enabled again, a notification is on
    screen and one timer has been added to clear it 3000 time units later.
    When an amount does not convert no request is sent, the error is logged,
    and the notification is an error carrying the error's own message, or
    the network text when the error is a [TypeError] saying "Failed to
    fetch". *)
Theorem run_always_ends
  (ingredients : list (jsstring * ShoppingList.Amount)) (today : jsstring)
  (n : nat) (fetched : ShoppingList.Try ShoppingList.Response)
  (b : ShoppingList.Button) :
  (forall e, ShoppingList.to_items ingredients = ShoppingList.Throws e ->
     let b' := fst (ShoppingList.start ingredients today b) in
     snd (ShoppingList.start ingredients today b) = None
     /\ ShoppingList.requests b' = ShoppingList.requests b
     /\ ShoppingList.isLoading b' = false
     /\ ShoppingList.notification b'
        = Some {| ShoppingList.message :=
                    if ShoppingList.is_TypeError e
                       && JS.eqb (ShoppingList.error_message e)
                                 (str "Failed to fetch")
                    then str "Network error: Please check your connection"
                    else ShoppingList.error_message e;
                  ShoppingList.type := str "error" |}
     /\ ShoppingList.pending b'
        = ShoppingList.pending b ++ [(ShoppingList.clock b + 3000)%N]
     /\ ShoppingList.logged b' = ShoppingList.logged b ++ [e])
  /\ (let b' := ShoppingList.finish n fetched b in
      ShoppingList.isLoading b' = false
      /\ ShoppingList.notification b' <> None
      /\ ShoppingList.pending b'
         = ShoppingList.pending b ++ [(ShoppingList.clock b + 3000)%N]).
Proof.
  split.
  - intros e He. unfold ShoppingList.start. rewrite He. now repeat split.
  - unfold ShoppingList.finish, ShoppingList.inner_try.
    destruct fetched as [response|e]; [|now repeat split].
    destruct (ShoppingList.json response) as [[msg|e]|e];
      destruct (negb (ShoppingList.ok response)); now repeat split.
Qed.

Lemma run_always_ends_witness :
  let thrown := {| ShoppingList.is_TypeError := true;
                   ShoppingList.error_message := str "amount is null" |} in
  let b' := fst (ShoppingList.start [(str "salt", ShoppingList.Throws thrown)]
                   (str "1/2/2025") idle_button) in
  ShoppingList.requests b' = []
  /\ ShoppingList.pending b' = [3000%N]
  /\ ShoppingList.notification b'
     = Some {| ShoppingList.message := str "amount is null";
               ShoppingList.type := str "error" |}.
Proof.
  intros thrown b'.
  destruct (run_always_ends [(str "salt", ShoppingList.Throws thrown)]
              (str "1/2/2025") 0
              (ShoppingList.Throws (ShoppingList.new_Error (str "")))
              idle_button) as [H _].
  destruct (H thrown eq_refl) as (_ & Hr & _ & Hn & Hp & _).
  split; [exact Hr|]. split; [exact Hp | exact Hn].
Defined.

(** A notification shown while no timer is pending stays for 3000 time
    units and is then cleared.  One shown while an older timer is pending is
    cleared when the older timer comes due, however recently it was shown:
    the timers are never cancelled. *)
Theorem notification_lifetime
  (message type : jsstring) (b : ShoppingList.Button) (d due : N) :
  let b1 := ShoppingList.showNotification message type b in
  let shown := Some {| ShoppingList.message := message;
                       ShoppingList.type := type |} in
  ShoppingList.notification b1 = shown
  /\ (ShoppingList.pending b = [] -> (d < 3000)%N ->
      ShoppingList.notification (ShoppingList.elapse d b1) = shown)
  /\ ((3000 <= d)%N ->
      ShoppingList.notification (ShoppingList.elapse d b1) = None)
  /\ (In due (ShoppingList.pending b) -> (ShoppingList.clock b <= due)%N ->
      ShoppingList.notification
        (ShoppingList.elapse (due - ShoppingList.clock b) b1) = None).
Proof.
  cbv zeta. split; [reflexivity|]. split; [|split].
  - intros Hp Hd. unfold ShoppingList.elapse, ShoppingList.showNotification.
    cbn. rewrite Hp. cbn.
    destruct (N.leb_spec (ShoppingList.clock b + 3000)
                         (ShoppingList.clock b + d)); [lia|reflexivity].
  - intros Hd. unfold ShoppingList.elapse, ShoppingList.showNotification.
    cbn. rewrite existsb_app. cbn.
    destruct (N.leb_spec (ShoppingList.clock b + 3000)
                         (ShoppingList.clock b + d)); [|lia].
    now rewrite !orb_true_r.
  - intros Hin Hle. unfold ShoppingList.elapse, ShoppingList.showNotification.
    cbn. rewrite existsb_app.
    replace (existsb _ (ShoppingList.pending b)) with true; [reflexivity|].
    symmetry. apply existsb_exists. exists due. split; [exact Hin|].
    apply N.leb_le. lia.
Qed.

Lemma notification_lifetime_witness :
  let b := ShoppingList.elapse 2500
             (ShoppingList.showNotification (str "first") (str "error")
                idle_button) in
  ShoppingList.notification
    (ShoppingList.elapse 500
       (ShoppingList.showNotification (str "second") (str "success") b))
  = None.
Proof.
  intros b.
  apply (notification_lifetime (str "second") (str "success") b 0 3000);
    [now left | vm_compute; discriminate].
Defined.

(** ** Signing out *)

(** Signing out closes the user menu at once.  When [signOut] resolves
    with a non-empty URL, the success alert is shown and one navigation to
    that URL is added 3000 time units later, not before, after those that
    earlier sign-outs had left pending; when it rejects, or resolves without
    a URL or with an empty one, the error alert is shown and nothing is
    added: the navigations that follow are those that were pending
    already, none when there were none. *)
Theorem logout_outcome (o : Header.SignOut) (n : Header.Nav) (d : N) :
  let n1 := Header.logout_finish o (Header.logout_start n) in
  Header.isUserMenuOpen (Header.logout_start n) = false
  /\ Header.isUserMenuOpen n1 = false
  /\ Header.isVisible (Header.navAlertConfig n1) = true
  /\ Header.pushed n1 = Header.pushed n
  /\ (forall url, o = Header.SignOutResolved (Some url) -> url <> [] ->
      Header.alert_type (Header.navAlertConfig n1) = str "success"
      /\ Header.alert_message (Header.navAlertConfig n1)
         = str "Successfully signed out"
      /\ Header.pending n1
         = Header.pending n ++ [((Header.clock n + 3000)%N, url)]
      /\ ((d < 3000)%N ->
          Header.pushed (Header.elapse d n1) = Header.pushed (Header.elapse d n))
      /\ ((3000 <= d)%N ->
          Header.pushed (Header.elapse d n1)
          = Header.pushed (Header.elapse d n) ++ [url]))
  /\ (o = Header.SignOutRejected \/ o = Header.SignOutResolved None
      \/ o = Header.SignOutResolved (Some []) ->
      Header.alert_type (Header.navAlertConfig n1) = str "error"
      /\ Header.alert_message (Header.navAlertConfig n1)
         = str "Error signing out"
      /\ Header.pending n1 = Header.pending n
      /\ Header.pushed (Header.elapse d n1) = Header.pushed (Header.elapse d n)
      /\ (Header.pending n = [] ->
          Header.pushed (Header.elapse d n1) = Header.pushed n)).
Proof.
  cbv zeta. split; [reflexivity|]. split; [|split; [|split; [|split]]].
  - destruct o as [|[[|c url]|]]; reflexivity.
  - destruct o as [|[[|c url]|]]; reflexivity.
  - destruct o as [|[[|c url]|]]; reflexivity.
  - intros url -> Hne. destruct url as [|c url]; [congruence|].
    unfold Header.logout_finish, Header.logout_start, Header.elapse.
    cbn -[N.leb N.add filter List.map app].
    do 3 (split; [reflexivity|]).
    rewrite filter_app, map_app, app_assoc. cbn -[N.leb N.add].
    split; intros Hd;
      destruct (N.leb_spec (Header.clock n + 3000) (Header.clock n + d));
      try lia; cbn; now rewrite ?app_nil_r.
  - intros [-> | [-> | ->]];
      unfold Header.logout_finish, Header.logout_start, Header.elapse;
      cbn -[N.leb N.add filter List.map app];
      (do 4 (split; [reflexivity|])); intros ->; cbn; now rewrite app_nil_r.
Qed.

Lemma logout_outcome_witness :
  let n := {| Header.isUserMenuOpen := true;
              Header.navAlertConfig :=
                {| Header.isVisible := false; Header.alert_message := str "";
                   Header.alert_type := str "success" |};
              Header.clock := 0; Header.pending := []; Header.pushed := [] |} in
  let first := Header.elapse 1000
                 (Header.logout_finish (Header.SignOutResolved (Some (str "/")))
                    (Header.logout_start n)) in
  Header.pushed
    (Header.elapse 3000
       (Header.logout_finish (Header.SignOutResolved (Some (str "/bye")))
          (Header.logout_start first)))
  = [str "/"; str "/bye"]
  /\ Header.pushed
       (Header.elapse 3000
          (Header.logout_finish Header.SignOutRejected
             (Header.logout_start first)))
     = [str "/"].
Proof.
  intros n first. split.
  - destruct (logout_outcome (Header.SignOutResolved (Some (str "/bye")))
                first 3000) as (_ & _ & _ & _ & H & _).
    destruct (H (str "/bye")) as (_ & _ & _ & _ & Hpush);
      [reflexivity | discriminate |].
    rewrite Hpush by lia. reflexivity.
  - destruct (logout_outcome Header.SignOutRejected first 3000)
      as (_ & _ & _ & _ & _ & H).
    destruct H as (_ & _ & _ & Hpush & _); [now left|].
    rewrite Hpush. reflexivity.
Defined.
